(** * The reactive pipeline of [reporting/dashboard.py]

    A shallow embedding of the series cache ([load_ticker]), the pair
    dataset builder ([get_data]), the statistics report ([update_stats])
    and the three Bokeh callbacks ([ticker1_change], [ticker2_change],
    [selection_change]) together with the widgets they read and write.

    pandas and Bokeh are libraries outside the repository.  The pandas
    operations the module calls are written out on a column-major data
    frame; what pandas computes in floating point (subtraction in [diff],
    the moments reported by [describe], the rendering done by [str]) is kept
    abstract in the class [Pandas], and the files under [DATA_DIR] are kept
    abstract in the class [Host]. *)

From Stdlib Require Import String Ascii ZArith Lia Bool Arith PeanoNat Sorted List.
Import ListNotations.
Local Open Scope string_scope.
Local Open Scope list_scope.

(** ** Exceptions and numeric cells *)

Inductive PyErr : Type :=
| FileNotFoundError
| KeyError
| ValueError
| IndexError.

(** The float64 payload of a cell, its subtraction, and the part of
    [DataFrame.describe] that is computed in floating point (mean, std,
    min, quartiles, max of the present values of a column). *)
Class Pandas : Type := {
  V : Type;
  sub : V -> V -> V;
  Moments : Type;
  moments_of : list V -> Moments
}.

(** A cell is a number or NaN ([None]). *)
Definition Cell `{Pandas} : Type := option V.

(** One line of a [table_<ticker>.csv] file, under the column names given
    to [read_csv]: [names=['date','foo','o','h','l','c','v']]. *)
Record CsvRow `{Pandas} : Type := mkRow {
  date : Z;
  foo : Cell;
  o : Cell;
  h : Cell;
  l : Cell;
  c : Cell;
  v : Cell
}.
Arguments mkRow {_} _ _ _ _ _ _ _.

(** A data frame: the index (parsed dates) and the named columns, in
    column order; column names may repeat, as in pandas. *)
Record DataFrame `{Pandas} : Type := mkDF {
  index : list Z;
  columns : list (string * list Cell)
}.
Arguments mkDF {_} _ _.

Record ColStats `{Pandas} : Type := mkStats {
  count : nat;
  moments : Moments
}.
Arguments mkStats {_} _ _.

Definition Describe `{Pandas} : Type := list (string * ColStats).

(** What the module takes from its host: the directory of the data files,
    the files themselves, and [str] of a [describe] table. *)
Class Host `{Pandas} : Type := {
  DATA_DIR : string;
  files : string -> option (list CsvRow);
  str : Describe -> string
}.

(** ** Strings: [str.lower] and [os.path.join]

    [lower] acts on the ASCII letters, which is all the identifiers of
    the universe contain. *)

Definition lower_ascii (a : ascii) : ascii :=
  let n := nat_of_ascii a in
  if (65 <=? n)%nat && (n <=? 90)%nat then ascii_of_nat (n + 32) else a.

Fixpoint lower (s : string) : string :=
  match s with
  | EmptyString => EmptyString
  | String a r => String (lower_ascii a) (lower r)
  end.

Definition starts_with_sep (s : string) : bool :=
  match s with
  | String a _ => Ascii.eqb a "/"
  | EmptyString => false
  end.

Fixpoint ends_with_sep (s : string) : bool :=
  match s with
  | EmptyString => false
  | String a EmptyString => Ascii.eqb a "/"
  | String _ r => ends_with_sep r
  end.

(** [posixpath.join] of two components. *)
Definition join (a b : string) : string :=
  if starts_with_sep b then b
  else if (a =? "") || ends_with_sep a then (a ++ b)%string
  else (a ++ "/" ++ b)%string.

(** ** Module constants *)

Definition DEFAULT_TICKERS : list string :=
  ["AAPL"; "GOOG"; "INTC"; "BRCM"; "YHOO"].

Definition nix (val : string) (lst : list string) : list string :=
  filter (fun x => negb (x =? val)) lst.
Arguments nix : simpl never.

(** ** pandas operations used by the module *)

Section Frames.
Context `{Pandas}.

Definition nrows (df : DataFrame) : nat := length (index df).

Definition sub_cell (a b : Cell) : Cell :=
  match a, b with
  | Some x, Some y => Some (sub x y)
  | _, _ => None
  end.

Fixpoint diff_from (prev : Cell) (xs : list Cell) : list Cell :=
  match xs with
  | [] => []
  | x :: r => sub_cell x prev :: diff_from x r
  end.

(** [Series.diff()]: NaN first, then each value minus the one before. *)
Definition diff (xs : list Cell) : list Cell :=
  match xs with
  | [] => []
  | x :: r => None :: diff_from x r
  end.

(** The union of two date indexes, as pandas aligns them for an outer
    join.  On strictly increasing indexes (the time-series invariant,
    [well_formed] below) the union is their ordered merge, which is what
    is written here; the statements about the content of a join assume
    that invariant. *)
Fixpoint union (xs : list Z) : list Z -> list Z :=
  fix inner (ys : list Z) : list Z :=
    match xs, ys with
    | [], _ => ys
    | _, [] => xs
    | x :: xs', y :: ys' =>
        if (x <? y)%Z then x :: union xs' ys
        else if (y <? x)%Z then y :: inner ys'
        else x :: union xs' ys'
    end.

Fixpoint cell_at (d : Z) (idx : list Z) (col : list Cell) : Cell :=
  match idx, col with
  | i :: idx', x :: col' => if (i =? d)%Z then x else cell_at d idx' col'
  | _, _ => None
  end.

(** A column realigned on a new index; NaN where the date is absent. *)
Definition reindex (old new : list Z) (col : list Cell) : list Cell :=
  map (fun d => cell_at d old col) new.

Definition reindex_columns (old new : list Z)
    (cols : list (string * list Cell)) : list (string * list Cell) :=
  map (fun nc => (fst nc, reindex old new (snd nc))) cols.

(** [pd.concat([df1, df2], axis=1)]: outer join on the index. *)
Definition concat (df1 df2 : DataFrame) : DataFrame :=
  let idx := union (index df1) (index df2) in
  mkDF idx (reindex_columns (index df1) idx (columns df1) ++
            reindex_columns (index df2) idx (columns df2)).

Definition is_present (x : Cell) : bool :=
  match x with Some _ => true | None => false end.

Definition row_complete (cols : list (string * list Cell)) (i : nat) : bool :=
  forallb (fun nc => is_present (nth i (snd nc) None)) cols.

(** The rows at the given positions, in the order the positions come. *)
Definition take (df : DataFrame) (pos : list nat) : DataFrame :=
  mkDF (map (fun i => nth i (index df) 0%Z) pos)
       (map (fun nc => (fst nc, map (fun i => nth i (snd nc) None) pos))
            (columns df)).

(** [DataFrame.dropna()]: the rows without any NaN. *)
Definition dropna (df : DataFrame) : DataFrame :=
  take df (filter (row_complete (columns df)) (seq 0 (nrows df))).

(** [data.iloc[selected, :]] with a list of positions: pandas raises
    [IndexError] when a position is out of bounds. *)
Definition iloc (df : DataFrame) (selected : list nat) : PyErr + DataFrame :=
  if forallb (fun i => (i <? nrows df)%nat) selected
  then inr (take df selected)
  else inl IndexError.

Definition named (name : string) (cols : list (string * list Cell))
  : list (string * list Cell) :=
  filter (fun nc => fst nc =? name) cols.

(** [data[name] = col]: every column of that name is replaced, or a new
    last column is added. *)
Definition setitem (df : DataFrame) (name : string) (col : list Cell)
  : DataFrame :=
  match named name (columns df) with
  | [] => mkDF (index df) (columns df ++ [(name, col)])
  | _ => mkDF (index df)
           (map (fun nc => if fst nc =? name then (name, col) else nc)
                (columns df))
  end.

(** [data[dst] = data[src]].  [data[src]] is a single column when the
    name is unique; a missing name raises [KeyError], and a repeated name
    yields a frame, which cannot be stored under one key ([ValueError]). *)
Definition copy_column (df : DataFrame) (dst src : string)
  : PyErr + DataFrame :=
  match named src (columns df) with
  | [] => inl KeyError
  | [nc] => inr (setitem df dst (snd nc))
  | _ => inl ValueError
  end.

Fixpoint pick (cols : list (string * list Cell)) (names : list string)
  : PyErr + list (string * list Cell) :=
  match names with
  | [] => inr []
  | n :: r =>
      match named n cols with
      | [] => inl KeyError
      | found =>
          match pick cols r with
          | inr rest => inr (found ++ rest)
          | inl e => inl e
          end
      end
  end.

(** [data[[n1, n2, ...]]]: the named columns, in the order asked. *)
Definition select (df : DataFrame) (names : list string)
  : PyErr + DataFrame :=
  match pick (columns df) names with
  | inr cols => inr (mkDF (index df) cols)
  | inl e => inl e
  end.

Fixpoint present (col : list Cell) : list V :=
  match col with
  | [] => []
  | Some x :: r => x :: present r
  | None :: r => present r
  end.

(** [DataFrame.describe()]: per column, the number of present values and
    the moments of the present values. *)
Definition describe (df : DataFrame) : Describe :=
  map (fun nc => (fst nc, mkStats (length (present (snd nc)))
                                  (moments_of (present (snd nc)))))
      (columns df).

(** The first column of a given name, for reading results. *)
Definition column (name : string) (df : DataFrame) : option (list Cell) :=
  match named name (columns df) with
  | nc :: _ => Some (snd nc)
  | [] => None
  end.

(** [DataFrame({ticker: data.c, ticker+'_returns': data.c.diff()})] on
    the frame read from the file and indexed by ['date']. *)
Definition ticker_frame (ticker : string) (data : list CsvRow) : DataFrame :=
  mkDF (map date data)
       [(ticker, map c data);
        ((ticker ++ "_returns")%string, diff (map c data))].
End Frames.

(** ** [functools.lru_cache] *)

Section LRU.
Context {K A : Type} (eqb : K -> K -> bool).

Definition cache_find (k : K) (cache : list (K * A)) : option A :=
  match find (fun e => eqb k (fst e)) cache with
  | Some e => Some (snd e)
  | None => None
  end.

Definition cache_remove (k : K) (cache : list (K * A)) : list (K * A) :=
  filter (fun e => negb (eqb k (fst e))) cache.

(** A hit moves the entry to the most recently used end (the head). *)
Definition cache_touch (k : K) (a : A) (cache : list (K * A)) : list (K * A) :=
  (k, a) :: cache_remove k cache.

(** A miss stores the result, evicting the least recently used entry
    (the last) when the cache is full. *)
Definition cache_store (maxsize : nat) (k : K) (a : A) (cache : list (K * A))
  : list (K * A) :=
  (k, a) :: (if (length cache <? maxsize)%nat then cache else removelast cache).
End LRU.

(** [lru_cache()] is called without arguments: [maxsize=128]. *)
Definition maxsize : nat := 128.

Definition pair_eqb (a b : string * string) : bool :=
  (fst a =? fst b) && (snd a =? snd b).

(** ** State and exception monad

    A raised exception keeps the assignments made before it. *)

Definition M (St A : Type) : Type := St -> (PyErr + A) * St.

Definition ret {St A : Type} (a : A) : M St A := fun s => (inr a, s).

Definition bind {St A B : Type} (m : M St A) (f : A -> M St B) : M St B :=
  fun s =>
    match m s with
    | (inr a, s') => f a s'
    | (inl e, s') => (inl e, s')
    end.

Definition lift {St A : Type} (r : PyErr + A) : M St A := fun s => (r, s).

Definition gets {St A : Type} (f : St -> A) : M St A := fun s => (inr (f s), s).

Definition modify {St : Type} (f : St -> St) : M St unit := fun s => (inr tt, f s).

Declare Scope py_scope.
Delimit Scope py_scope with py.
Notation "x <- m ;; k" := (bind m (fun x => k))
  (at level 100, m at next level, right associativity) : py_scope.
Notation "m ;;; k" := (bind m (fun _ => k))
  (at level 100, right associativity) : py_scope.

(** ** Program state *)

(** The calls into pandas that read a file or join two frames, in the
    order they happen. *)
Inductive Effect : Type :=
| ReadCsv (fname : string)
| Concat (t1 t2 : string).

(** What [load_ticker] and [get_data] touch: the two [lru_cache] stores
    (most recently used first) and the trace of pandas calls. *)
Record Store `{Pandas} : Type := mkStore {
  load_ticker_cache : list (string * DataFrame);
  get_data_cache : list ((string * string) * DataFrame);
  trace : list Effect
}.
Arguments mkStore {_} _ _ _.

(** The properties of the module-level widgets, figures and data sources
    that the callbacks read or assign. *)
Record Widgets `{Pandas} : Type := mkWidgets {
  stats_text : string;
  ticker1_value : string;
  ticker1_options : list string;
  ticker2_value : string;
  ticker2_options : list string;
  source_data : DataFrame;
  source_static_data : DataFrame;
  source_selected_indices : list nat;
  corr_title_text : string;
  ts1_title_text : string;
  ts2_title_text : string
}.
Arguments mkWidgets {_} _ _ _ _ _ _ _ _ _ _ _.

Record State `{Pandas} : Type := mkState {
  store : Store;
  widgets : Widgets
}.
Arguments mkState {_} _ _.

Section Setters.
Context `{Pandas}.

Definition set_load_ticker_cache (x : list (string * DataFrame)) (s : Store) :=
  mkStore x (get_data_cache s) (trace s).

Definition set_get_data_cache (x : list ((string * string) * DataFrame))
    (s : Store) :=
  mkStore (load_ticker_cache s) x (trace s).

Definition emit (e : Effect) (s : Store) :=
  mkStore (load_ticker_cache s) (get_data_cache s) (trace s ++ [e]).

Definition set_stats_text (x : string) (w : Widgets) :=
  mkWidgets x
    (ticker1_value w) (ticker1_options w) (ticker2_value w) (ticker2_options w)
    (source_data w) (source_static_data w) (source_selected_indices w)
    (corr_title_text w) (ts1_title_text w) (ts2_title_text w).

Definition set_ticker1_value (x : string) (w : Widgets) :=
  mkWidgets (stats_text w)
    x (ticker1_options w) (ticker2_value w) (ticker2_options w)
    (source_data w) (source_static_data w) (source_selected_indices w)
    (corr_title_text w) (ts1_title_text w) (ts2_title_text w).

Definition set_ticker1_options (x : list string) (w : Widgets) :=
  mkWidgets (stats_text w)
    (ticker1_value w) x (ticker2_value w) (ticker2_options w)
    (source_data w) (source_static_data w) (source_selected_indices w)
    (corr_title_text w) (ts1_title_text w) (ts2_title_text w).

Definition set_ticker2_value (x : string) (w : Widgets) :=
  mkWidgets (stats_text w)
    (ticker1_value w) (ticker1_options w) x (ticker2_options w)
    (source_data w) (source_static_data w) (source_selected_indices w)
    (corr_title_text w) (ts1_title_text w) (ts2_title_text w).

Definition set_ticker2_options (x : list string) (w : Widgets) :=
  mkWidgets (stats_text w)
    (ticker1_value w) (ticker1_options w) (ticker2_value w) x
    (source_data w) (source_static_data w) (source_selected_indices w)
    (corr_title_text w) (ts1_title_text w) (ts2_title_text w).

Definition set_source_data (x : DataFrame) (w : Widgets) :=
  mkWidgets (stats_text w)
    (ticker1_value w) (ticker1_options w) (ticker2_value w) (ticker2_options w)
    x (source_static_data w) (source_selected_indices w)
    (corr_title_text w) (ts1_title_text w) (ts2_title_text w).

Definition set_source_static_data (x : DataFrame) (w : Widgets) :=
  mkWidgets (stats_text w)
    (ticker1_value w) (ticker1_options w) (ticker2_value w) (ticker2_options w)
    (source_data w) x (source_selected_indices w)
    (corr_title_text w) (ts1_title_text w) (ts2_title_text w).

Definition set_source_selected_indices (x : list nat) (w : Widgets) :=
  mkWidgets (stats_text w)
    (ticker1_value w) (ticker1_options w) (ticker2_value w) (ticker2_options w)
    (source_data w) (source_static_data w) x
    (corr_title_text w) (ts1_title_text w) (ts2_title_text w).

Definition set_corr_title_text (x : string) (w : Widgets) :=
  mkWidgets (stats_text w)
    (ticker1_value w) (ticker1_options w) (ticker2_value w) (ticker2_options w)
    (source_data w) (source_static_data w) (source_selected_indices w)
    x (ts1_title_text w) (ts2_title_text w).

Definition set_ts_title_text (x1 x2 : string) (w : Widgets) :=
  mkWidgets (stats_text w)
    (ticker1_value w) (ticker1_options w) (ticker2_value w) (ticker2_options w)
    (source_data w) (source_static_data w) (source_selected_indices w)
    (corr_title_text w) x1 x2.

(** A computation on the caches, run inside the whole state. *)
Definition on_store {A : Type} (m : M Store A) : M State A :=
  fun s =>
    match m (store s) with
    | (r, st) => (r, mkState st (widgets s))
    end.

Definition widget {A : Type} (f : Widgets -> A) : M State A :=
  gets (fun s => f (widgets s)).

Definition assign (f : Widgets -> Widgets) : M State unit :=
  modify (fun s => mkState (store s) (f (widgets s))).
End Setters.

Section Pipeline.
Context `{Host}.
Local Open Scope py_scope.

(** The [lru_cache] wrapper over one of the two stores.  A call that
    raises stores nothing. *)
Definition lru_cache {K : Type} (eqb : K -> K -> bool)
    (get : Store -> list (K * DataFrame))
    (set : list (K * DataFrame) -> Store -> Store)
    (body : K -> M Store DataFrame) (k : K) : M Store DataFrame :=
  fun s =>
    match cache_find eqb k (get s) with
    | Some df => (inr df, set (cache_touch eqb k df (get s)) s)
    | None =>
        match body k s with
        | (inr df, s') => (inr df, set (cache_store maxsize k df (get s')) s')
        | (inl e, s') => (inl e, s')
        end
    end.

(** [pd.read_csv] with [names=[...]]: a missing file raises
    [FileNotFoundError]; a file without any line gives a frame without
    rows. *)
Definition read_csv (fname : string) : M Store (list CsvRow) :=
  fun s =>
    match files fname with
    | None => (inl FileNotFoundError, s)
    | Some rows => (inr rows, emit (ReadCsv fname) s)
    end.

Definition fname_of (ticker : string) : string :=
  join DATA_DIR ("table_" ++ lower ticker ++ ".csv")%string.

Definition load_ticker_body (ticker : string) : M Store DataFrame :=
  let fname := fname_of ticker in
  data <- read_csv fname ;;
  ret (ticker_frame ticker data).

Definition load_ticker : string -> M Store DataFrame :=
  lru_cache String.eqb load_ticker_cache set_load_ticker_cache
    load_ticker_body.

Definition get_data_body (key : string * string) : M Store DataFrame :=
  let t1 := fst key in
  let t2 := snd key in
  df1 <- load_ticker t1 ;;
  df2 <- load_ticker t2 ;;
  modify (emit (Concat t1 t2)) ;;;
  let data := concat df1 df2 in
  let data := dropna data in
  data <- lift (copy_column data "t1" t1) ;;
  data <- lift (copy_column data "t2" t2) ;;
  data <- lift (copy_column data "t1_returns" (t1 ++ "_returns")%string) ;;
  data <- lift (copy_column data "t2_returns" (t2 ++ "_returns")%string) ;;
  ret data.

Definition get_data (t1 t2 : string) : M Store DataFrame :=
  lru_cache pair_eqb get_data_cache set_get_data_cache get_data_body (t1, t2).

Definition stat_columns (t1 t2 : string) : list string :=
  [t1; t2; (t1 ++ "_returns")%string; (t2 ++ "_returns")%string].

Definition update_stats (data : DataFrame) (t1 t2 : string) : M State unit :=
  view <- lift (select data (stat_columns t1 t2)) ;;
  assign (set_stats_text (str (describe view))).

Definition plot_columns : list string :=
  ["t1"; "t2"; "t1_returns"; "t2_returns"].

Definition update : M State unit :=
  t1 <- widget ticker1_value ;;
  t2 <- widget ticker2_value ;;
  df <- on_store (get_data t1 t2) ;;
  data <- lift (select df plot_columns) ;;
  assign (set_source_data data) ;;;
  assign (set_source_static_data data) ;;;
  update_stats df t1 t2 ;;;
  assign (set_corr_title_text
            (t1 ++ " returns vs. " ++ t2 ++ " returns")%string) ;;;
  assign (set_ts_title_text t1 t2).

Definition ticker1_change (attrname old new : string) : M State unit :=
  assign (set_ticker2_options (nix new DEFAULT_TICKERS)) ;;;
  update.

Definition ticker2_change (attrname old new : string) : M State unit :=
  assign (set_ticker1_options (nix new DEFAULT_TICKERS)) ;;;
  update.

(** The rows a selection keeps:
    [if selected: data = data.iloc[selected, :]]. *)
Definition restrict (data : DataFrame) (selected : list nat)
  : PyErr + DataFrame :=
  match selected with
  | [] => inr data
  | _ :: _ => iloc data selected
  end.

Definition selection_change (attrname : string) (old new : list nat)
  : M State unit :=
  t1 <- widget ticker1_value ;;
  t2 <- widget ticker2_value ;;
  data <- on_store (get_data t1 t2) ;;
  selected <- widget source_selected_indices ;;
  data <- lift (restrict data selected) ;;
  update_stats data t1 t2.

(** *** Events

    Bokeh assigns the changed property and then runs the callback
    registered with [on_change] for it. *)
Inductive Slot : Type := Slot1 | Slot2.

Inductive Event : Type :=
| IdentifierChanged (slot : Slot) (new : string)
| SelectionChanged (indices : list nat).

Definition dispatch (e : Event) : M State unit :=
  match e with
  | IdentifierChanged Slot1 new =>
      old <- widget ticker1_value ;;
      assign (set_ticker1_value new) ;;;
      ticker1_change "value" old new
  | IdentifierChanged Slot2 new =>
      old <- widget ticker2_value ;;
      assign (set_ticker2_value new) ;;;
      ticker2_change "value" old new
  | SelectionChanged indices =>
      old <- widget source_selected_indices ;;
      assign (set_source_selected_indices indices) ;;;
      selection_change "indices" old indices
  end.

Definition step (e : Event) (s : State) : State := snd (dispatch e s).

Definition run (es : list Event) (s : State) : State :=
  fold_left (fun s e => step e s) es s.

(** The module-level set-up, before any callback has run. *)
Definition empty_source : DataFrame :=
  mkDF [] [("t1", []); ("t2", []); ("t1_returns", []); ("t2_returns", [])].

Definition init : State :=
  mkState (mkStore [] [] [])
    (mkWidgets ""
       "AAPL" (nix "GOOG" DEFAULT_TICKERS)
       "GOOG" (nix "AAPL" DEFAULT_TICKERS)
       empty_source empty_source []
       "" "" "").

(** [app(doc)] calls [update()] once when a session opens. *)
Definition app : M State unit := update.

Definition other_options (slot : Slot) (s : State) : list string :=
  match slot with
  | Slot1 => ticker2_options (widgets s)
  | Slot2 => ticker1_options (widgets s)
  end.

Definition own_options (slot : Slot) (s : State) : list string :=
  match slot with
  | Slot1 => ticker1_options (widgets s)
  | Slot2 => ticker2_options (widgets s)
  end.
End Pipeline.

(** ** Concrete hosts, for evaluating the program *)

(** Integer-valued cells with exact subtraction; the moments of a column
    are represented by its present values themselves. *)
Definition ZPandas : Pandas :=
  {| V := Z; sub := Z.sub; Moments := list Z; moments_of := fun xs => xs |}.

Definition quote_row (d x : Z) : @CsvRow ZPandas :=
  @mkRow ZPandas d None (Some x) (Some x) (Some x) (Some x) None.

Definition show_describe (d : @Describe ZPandas) : string :=
  String.concat "," (map fst d).

(** A directory holding the given files. *)
Definition host_of (dir : string)
    (listing : list (string * list (@CsvRow ZPandas))) : @Host ZPandas :=
  {| DATA_DIR := dir;
     files := fun fname =>
       match find (fun e => fst e =? fname) listing with
       | Some e => Some (snd e)
       | None => None
       end;
     str := show_describe |}.

(** The two series of the concrete scenario, on three dates. *)
Definition series_A (d1 d2 d3 : Z) : list (@CsvRow ZPandas) :=
  [quote_row d1 10; quote_row d2 12; quote_row d3 11].

Definition series_B (d1 d2 d3 : Z) : list (@CsvRow ZPandas) :=
  [quote_row d1 20; quote_row d2 19; quote_row d3 22].

(** The dataset the scenario expects. *)
Definition scenario_frame (d2 d3 : Z) : @DataFrame ZPandas :=
  @mkDF ZPandas [d2; d3]
    [("A", [Some 12; Some 11]); ("A_returns", [Some 2; Some (-1)]);
     ("B", [Some 19; Some 22]); ("B_returns", [Some (-1); Some 3]);
     ("t1", [Some 12; Some 11]); ("t2", [Some 19; Some 22]);
     ("t1_returns", [Some 2; Some (-1)]);
     ("t2_returns", [Some (-1); Some 3])]%Z.

Definition scenario_host : @Host ZPandas :=
  host_of "daily" [("daily/table_a.csv", series_A 1 2 3);
                   ("daily/table_b.csv", series_B 1 2 3)].

(** Five quoted series: AAPL and GOOG overlap on three dates, INTC shares
    no date with either, BRCM overlaps AAPL on two dates. *)
Definition market_host : @Host ZPandas :=
  host_of "daily"
    [("daily/table_aapl.csv", series_A 1 2 3);
     ("daily/table_goog.csv", series_B 1 2 3);
     ("daily/table_intc.csv", [quote_row 7 30; quote_row 8 31]);
     ("daily/table_brcm.csv", [quote_row 2 5; quote_row 3 6; quote_row 4 8])].

(** The session of [market_host] once [app] has run. *)
Definition market_open : @State ZPandas :=
  snd (@app ZPandas market_host (@init ZPandas)).

(** The dataset [get_data] holds for the opening pair of [market_host]. *)
Definition market_frame : @DataFrame ZPandas :=
  match fst (@get_data ZPandas market_host "AAPL" "GOOG" (store market_open)) with
  | inr df => df
  | inl _ => @empty_source ZPandas
  end.

(** ** Derived notions used in the statements *)

Section Notions.
Context `{Host}.

(** What [load_ticker] computes for a ticker, cache aside. *)
Definition load_value (ticker : string) : PyErr + DataFrame :=
  match files (fname_of ticker) with
  | None => inl FileNotFoundError
  | Some rows => inr (ticker_frame ticker rows)
  end.

(** The four column copies that end [get_data]. *)
Definition label (t1 t2 : string) (data : DataFrame) : PyErr + DataFrame :=
  match copy_column data "t1" t1 with
  | inl e => inl e
  | inr d1 =>
      match copy_column d1 "t2" t2 with
      | inl e => inl e
      | inr d2 =>
          match copy_column d2 "t1_returns" (t1 ++ "_returns")%string with
          | inl e => inl e
          | inr d3 =>
              copy_column d3 "t2_returns" (t2 ++ "_returns")%string
          end
      end
  end.

(** The frame part of [get_data], after the two loads. *)
Definition assemble (t1 t2 : string) (df1 df2 : DataFrame)
  : PyErr + DataFrame :=
  label t1 t2 (dropna (concat df1 df2)).

(** What [get_data] computes for a pair, caches aside. *)
Definition pair_value (t1 t2 : string) : PyErr + DataFrame :=
  match load_value t1 with
  | inl e => inl e
  | inr df1 =>
      match load_value t2 with
      | inl e => inl e
      | inr df2 => assemble t1 t2 df1 df2
      end
  end.

(** Every cached frame is the one its key computes. *)
Definition coherent (s : Store) : Prop :=
  (forall t df, cache_find String.eqb t (load_ticker_cache s) = Some df ->
                load_value t = inr df) /\
  (forall t1 t2 df,
      cache_find pair_eqb (t1, t2) (get_data_cache s) = Some df ->
      pair_value t1 t2 = inr df).

Definition is_read (fname : string) (e : Effect) : bool :=
  match e with
  | ReadCsv f => f =? fname
  | Concat _ _ => false
  end.

(** How many times a file has been read. *)
Definition reads (fname : string) (tr : list Effect) : nat :=
  length (filter (is_read fname) tr).

Definition is_concat (e : Effect) : bool :=
  match e with
  | ReadCsv _ => false
  | Concat _ _ => true
  end.

(** How many joins have been computed. *)
Definition joins (tr : list Effect) : nat :=
  length (filter is_concat tr).

Definition in_universe (e : Event) : Prop :=
  match e with
  | IdentifierChanged _ new => In new DEFAULT_TICKERS
  | SelectionChanged _ => True
  end.

(** The two choosers exclude each other's value. *)
Definition exclusive (s : State) : Prop :=
  ticker1_options (widgets s) = nix (ticker2_value (widgets s)) DEFAULT_TICKERS /\
  ticker2_options (widgets s) = nix (ticker1_value (widgets s)) DEFAULT_TICKERS /\
  ticker1_value (widgets s) <> ticker2_value (widgets s).

(** An event the choosers offer: a new identifier is one of the options
    of the slot it is chosen in. *)
Definition offered (e : Event) (s : State) : Prop :=
  match e with
  | IdentifierChanged slot new => In new (own_options slot s)
  | SelectionChanged _ => True
  end.

Fixpoint distinct (names : list string) : bool :=
  match names with
  | [] => true
  | n :: r => negb (existsb (String.eqb n) r) && distinct r
  end.

(** The column names [get_data] handles do not collide. *)
Definition clean (t1 t2 : string) : bool :=
  distinct [t1; (t1 ++ "_returns")%string; t2; (t2 ++ "_returns")%string;
            "t1"; "t2"; "t1_returns"; "t2_returns"].

Fixpoint increasing (ds : list Z) : bool :=
  match ds with
  | [] => true
  | d :: r =>
      match r with
      | [] => true
      | d' :: _ => (d <? d')%Z && increasing r
      end
  end.

(** The time-series invariant: dates strictly increasing. *)
Definition well_formed (rows : list CsvRow) : bool :=
  increasing (map date rows).

Definition no_common_date (rows1 rows2 : list CsvRow) : Prop :=
  forall d, In d (map date rows1) -> ~ In d (map date rows2).

(** The rows [dropna] keeps of the join of two ticker frames. *)
Definition kept (rows1 rows2 : list CsvRow) : list nat :=
  let idx := union (map date rows1) (map date rows2) in
  filter
    (fun i =>
       (is_present (nth i (reindex (map date rows1) idx (map c rows1)) None) &&
        is_present (nth i (reindex (map date rows1) idx (diff (map c rows1))) None)) &&
       (is_present (nth i (reindex (map date rows2) idx (map c rows2)) None) &&
        is_present (nth i (reindex (map date rows2) idx (diff (map c rows2))) None)))
    (seq 0 (length idx)).

(** A column of one of the two series, as it stands in the join. *)
Definition joined (rows1 rows2 own : list CsvRow) (col : list Cell)
  : list Cell :=
  let idx := union (map date rows1) (map date rows2) in
  map (fun i => nth i (reindex (map date own) idx col) None)
      (kept rows1 rows2).

Definition joined_index (rows1 rows2 : list CsvRow) : list Z :=
  let idx := union (map date rows1) (map date rows2) in
  map (fun i => nth i idx 0%Z) (kept rows1 rows2).

(** The dataset [get_data] returns for two series whose column names do
    not collide. *)
Definition pair_frame (t1 t2 : string) (rows1 rows2 : list CsvRow)
  : DataFrame :=
  let a := joined rows1 rows2 rows1 (map c rows1) in
  let b := joined rows1 rows2 rows1 (diff (map c rows1)) in
  let c' := joined rows1 rows2 rows2 (map c rows2) in
  let d := joined rows1 rows2 rows2 (diff (map c rows2)) in
  mkDF (joined_index rows1 rows2)
    [(t1, a); ((t1 ++ "_returns")%string, b);
     (t2, c'); ((t2 ++ "_returns")%string, d);
     ("t1", a); ("t2", c'); ("t1_returns", b); ("t2_returns", d)].

(** The state in which [update] runs after an identifier change. *)
Definition after_change (slot : Slot) (X : string) (s : State) : State :=
  match slot with
  | Slot1 =>
      mkState (store s)
        (set_ticker2_options (nix X DEFAULT_TICKERS)
           (set_ticker1_value X (widgets s)))
  | Slot2 =>
      mkState (store s)
        (set_ticker1_options (nix X DEFAULT_TICKERS)
           (set_ticker2_value X (widgets s)))
  end.


(** The series cache never outgrows the universe, and a file of the
    universe has been read once if its series is cached and never
    otherwise. *)
Definition tidy (s : Store) : Prop :=
  NoDup (map fst (load_ticker_cache s)) /\
  (forall t, In t (map fst (load_ticker_cache s)) -> In t DEFAULT_TICKERS) /\
  (forall t rows,
      In t DEFAULT_TICKERS -> files (fname_of t) = Some rows -> rows <> [] ->
      reads (fname_of t) (trace s) =
      match cache_find String.eqb t (load_ticker_cache s) with
      | Some _ => 1
      | None => 0
      end).

Definition values_in_universe (s : State) : Prop :=
  In (ticker1_value (widgets s)) DEFAULT_TICKERS /\
  In (ticker2_value (widgets s)) DEFAULT_TICKERS.

End Notions.

(** ** The startup query: [get_variables]

    The Elasticsearch client ([lib.tsdb.Elastic]) is outside the module:
    what [tsdb.query(None, aggs, term_filters=None)] answers for a URL and
    an aggregation request is a parameter.  The answer is a JSON value;
    subscripting, iterating and string concatenation raise as Python does
    on a value of the wrong kind. *)

#[local] Unset Elimination Schemes.
Inductive Json : Type :=
| JNull
| JBool (b : bool)
| JNum (n : Z)
| JStr (s : string)
| JList (xs : list Json)
| JDict (items : list (string * Json)).
#[local] Set Elimination Schemes.

Inductive StartupErr : Type :=
| SKeyError
| STypeError
| SQueryError.

(** How a run of [get_variables] ends. *)
Inductive Outcome : Type :=
| Done
| Raised (e : StartupErr).

(** [x[k]] with a string key. *)
Definition subscript (x : Json) (k : string) : StartupErr + Json :=
  match x with
  | JDict items =>
      match find (fun e => fst e =? k) items with
      | Some e => inr (snd e)
      | None => inl SKeyError
      end
  | _ => inl STypeError
  end.

(** What [for n in x] runs over: the elements of a list, the keys of a
    dict, the characters of a string. *)
Definition iterate (x : Json) : StartupErr + list Json :=
  match x with
  | JList xs => inr xs
  | JDict items => inr (map (fun e => JStr (fst e)) items)
  | JStr s => inr (map (fun a => JStr (String a EmptyString))
                      (list_ascii_of_string s))
  | _ => inl STypeError
  end.

(** ['prefix' + x]: only a string can be appended. *)
Definition str_plus (prefix : string) (x : Json) : StartupErr + string :=
  match x with
  | JStr s => inr (prefix ++ s)%string
  | _ => inl STypeError
  end.

(** The request built by [get_variables]. *)
Definition terms_of (field : string) : Json :=
  JDict [("terms", JDict [("field", JStr field); ("size", JNum 100)])].

Definition aggs : Json :=
  JDict [("pop_list", terms_of "pop.raw");
         ("network_list", terms_of "network.raw");
         ("host_list", terms_of "host.raw")].

(** One [for n in ...: print(prefix + n['key'])] loop: the lines printed
    and how the loop ends. *)
Fixpoint print_keys (prefix : string) (ns : list Json) : list string * Outcome :=
  match ns with
  | [] => ([], Done)
  | n :: r =>
      match subscript n "key" with
      | inl e => ([], Raised e)
      | inr k =>
          match str_plus prefix k with
          | inl e => ([], Raised e)
          | inr line =>
              let (lines, out) := print_keys prefix r in
              (line :: lines, out)
          end
      end
  end.

(** One loop with its header
    [result['aggregations'][name]['buckets']]. *)
Definition print_buckets (result : Json) (name prefix : string)
  : list string * Outcome :=
  match subscript result "aggregations" with
  | inl e => ([], Raised e)
  | inr a =>
      match subscript a name with
      | inl e => ([], Raised e)
      | inr b =>
          match subscript b "buckets" with
          | inl e => ([], Raised e)
          | inr bs =>
              match iterate bs with
              | inl e => ([], Raised e)
              | inr ns => print_keys prefix ns
              end
          end
      end
  end.

(** Two statements in sequence: the second runs when the first ends
    normally, and what was printed stays printed. *)
Definition and_then (first : list string * Outcome)
    (second : list string * Outcome) : list string * Outcome :=
  match first with
  | (lines, Done) => (lines ++ fst second, snd second)
  | (lines, Raised e) => (lines, Raised e)
  end.

Section Startup.
Variable query : string -> Json -> StartupErr + Json.

Definition get_variables (url : string) : list string * Outcome :=
  match query url aggs with
  | inl e => ([], Raised e)
  | inr result =>
      and_then (print_buckets result "network_list" "network: ")
        (and_then (print_buckets result "pop_list" "pop: ")
           (print_buckets result "host_list" "host: "))
  end.
End Startup.

(** A well-formed bucket list: each bucket is subscriptable and holds a
    string under ['key']. *)
Definition keyed (ns : list Json) (keys : list string) : Prop :=
  Forall2 (fun n k => subscript n "key" = inr (JStr k)) ns keys.

(** An answer with three lists of two buckets each. *)
Definition bucket (k : string) (docs : Z) : Json :=
  JDict [("key", JStr k); ("doc_count", JNum docs)].

Definition sample_answer : Json :=
  JDict [("took", JNum 3);
         ("aggregations",
          JDict [("pop_list",
                  JDict [("buckets", JList [bucket "ams" 7; bucket "lax" 2])]);
                 ("network_list",
                  JDict [("buckets", JList [bucket "core" 9; bucket "edge" 1])]);
                 ("host_list",
                  JDict [("buckets", JList [bucket "h1" 5; bucket "h2" 4])])])].

(** An answer whose second pop bucket carries a number as key, and which
    has no host list. *)
Definition broken_answer : Json :=
  JDict [("aggregations",
          JDict [("pop_list",
                  JDict [("buckets",
                          JList [bucket "ams" 7;
                                 JDict [("key", JNum 42)]])]);
                 ("network_list",
                  JDict [("buckets", JList [bucket "core" 9])])])].

(** Two clients, answering every request with one of the answers. *)
Definition sample_query (url : string) (request : Json) : StartupErr + Json :=
  inr sample_answer.

Definition broken_query (url : string) (request : Json) : StartupErr + Json :=
  inr broken_answer.

(** ** Further notions *)

Section MoreNotions.
Context `{Host}.

(** What the presentation layer is given: both tables, the report and
    the three titles. *)
Definition published (s : State)
  : DataFrame * DataFrame * string * (string * string * string) :=
  (source_data (widgets s), source_static_data (widgets s),
   stats_text (widgets s),
   (corr_title_text (widgets s), ts1_title_text (widgets s),
    ts2_title_text (widgets s))).

(** All cells of a frame are numbers. *)
Definition complete (df : DataFrame) : Prop :=
  Forall (fun nc => Forall (fun x => is_present x = true) (snd nc))
         (columns df).

(** All columns of a frame are as long as its index. *)
Definition rectangular (df : DataFrame) : Prop :=
  Forall (fun nc => length (snd nc) = nrows df) (columns df).

(** The series has a level and a return at a date. *)
Definition quoted (rows : list CsvRow) (d : Z) : Prop :=
  is_present (cell_at d (map date rows) (map c rows)) = true /\
  is_present (cell_at d (map date rows) (diff (map c rows))) = true.
(** The changed slot holds the given identifier. *)
Definition own_value_is (slot : Slot) (X : string) (s : State) : Prop :=
  match slot with
  | Slot1 => ticker1_value (widgets s) = X
  | Slot2 => ticker2_value (widgets s) = X
  end.

(** Both stores hold at most [maxsize] entries, under distinct keys. *)
Definition bounded (s : Store) : Prop :=
  length (load_ticker_cache s) <= maxsize /\
  NoDup (map fst (load_ticker_cache s)) /\
  length (get_data_cache s) <= maxsize /\
  NoDup (map fst (get_data_cache s)).
End MoreNotions.

(** * Properties *)

(** ** Facts about the cache stores *)

Section CacheFacts.
Context {K A : Type} (eqb : K -> K -> bool).
Hypothesis eqb_eq : forall a b, eqb a b = true <-> a = b.

Lemma eqb_same : forall a, eqb a a = true.
Proof. intro a. apply eqb_eq. reflexivity. Qed.

Lemma cache_find_remove_other : forall (k k' : K) (cache : list (K * A)),
    eqb k' k = false ->
    cache_find eqb k' (cache_remove eqb k cache) = cache_find eqb k' cache.
Proof.
  intros k k' cache Hne. unfold cache_find, cache_remove.
  induction cache as [|e cache IH]; simpl; [reflexivity|].
  destruct (eqb k (fst e)) eqn:Hk; simpl.
  - destruct (eqb k' (fst e)) eqn:Hk'.
    + apply eqb_eq in Hk. apply eqb_eq in Hk'. subst k.
      rewrite Hk' in Hne. rewrite eqb_same in Hne. discriminate.
    + exact IH.
  - destruct (eqb k' (fst e)); [reflexivity | exact IH].
Qed.

Lemma cache_find_touch : forall (k k' : K) (a : A) (cache : list (K * A)),
    cache_find eqb k' (cache_touch eqb k a cache) =
    if eqb k' k then Some a else cache_find eqb k' cache.
Proof.
  intros k k' a cache. unfold cache_touch.
  unfold cache_find at 1. simpl.
  destruct (eqb k' k) eqn:Hk; [reflexivity|].
  apply cache_find_remove_other. exact Hk.
Qed.

Lemma find_removelast : forall (P : K * A -> bool) (cache : list (K * A)) e,
    find P (removelast cache) = Some e -> find P cache = Some e.
Proof.
  intros P cache e. induction cache as [|x cache IH]; simpl; [discriminate|].
  destruct cache as [|y cache]; [discriminate|].
  cbn [find]. destruct (P x); [trivial|]. exact IH.
Qed.

Lemma cache_find_store_same : forall n (k : K) (a : A) cache,
    cache_find eqb k (cache_store n k a cache) = Some a.
Proof.
  intros. unfold cache_store, cache_find. simpl. rewrite eqb_same. reflexivity.
Qed.

Lemma cache_find_store_inv : forall n (k k' : K) (a a' : A) cache,
    cache_find eqb k' (cache_store n k a cache) = Some a' ->
    (k' = k /\ a' = a) \/ cache_find eqb k' cache = Some a'.
Proof.
  intros n k k' a a' cache. unfold cache_store, cache_find. simpl.
  destruct (eqb k' k) eqn:Hk.
  - intro E. injection E as <-. left. split; [apply eqb_eq; exact Hk | reflexivity].
  - destruct (length cache <? n)%nat; intro E; right; [exact E|].
    destruct (find _ (removelast cache)) eqn:F; [|discriminate].
    apply find_removelast in F. rewrite F. exact E.
Qed.

Lemma cache_find_store_other : forall n (k k' : K) (a : A) cache,
    (length cache < n)%nat -> eqb k' k = false ->
    cache_find eqb k' (cache_store n k a cache) = cache_find eqb k' cache.
Proof.
  intros n k k' a cache Hlen Hk. unfold cache_store, cache_find. simpl.
  rewrite Hk. apply Nat.ltb_lt in Hlen. rewrite Hlen. reflexivity.
Qed.

Lemma cache_find_none_store : forall n (k k' : K) (a : A) cache,
    eqb k' k = false -> cache_find eqb k' cache = None ->
    cache_find eqb k' (cache_store n k a cache) = None.
Proof.
  intros n k k' a cache Hk Hnone.
  destruct (cache_find eqb k' (cache_store n k a cache)) as [a'|] eqn:E;
    [|reflexivity].
  apply cache_find_store_inv in E. destruct E as [[-> _]|E].
  - rewrite eqb_same in Hk. discriminate.
  - rewrite E in Hnone. discriminate.
Qed.
End CacheFacts.

Lemma pair_eqb_eq : forall a b, pair_eqb a b = true <-> a = b.
Proof.
  intros [a1 a2] [b1 b2]. unfold pair_eqb. simpl.
  rewrite andb_true_iff, !String.eqb_eq. split.
  - intros [-> ->]. reflexivity.
  - intro E. injection E as -> ->. split; reflexivity.
Qed.

(** ** Running the callbacks *)

Section Running.
Context `{Host}.

(** [update_stats] assigns the report, or raises on a missing column and
    assigns nothing. *)
Lemma update_stats_run : forall data t1 t2 (s : State),
    update_stats data t1 t2 s =
    match select data (stat_columns t1 t2) with
    | inr view =>
        (inr tt, mkState (store s)
                   (set_stats_text (str (describe view)) (widgets s)))
    | inl e => (inl e, s)
    end.
Proof.
  intros. unfold update_stats, bind, lift, assign, modify.
  destruct (select data (stat_columns t1 t2)); reflexivity.
Qed.

Lemma selection_change_run : forall a old new (s : State),
    selection_change a old new s =
    let t1 := ticker1_value (widgets s) in
    let t2 := ticker2_value (widgets s) in
    match get_data t1 t2 (store s) with
    | (inr df, st) =>
        match restrict df (source_selected_indices (widgets s)) with
        | inr data => update_stats data t1 t2 (mkState st (widgets s))
        | inl e => (inl e, mkState st (widgets s))
        end
    | (inl e, st) => (inl e, mkState st (widgets s))
    end.
Proof.
  intros. unfold selection_change, bind, widget, gets, on_store, lift. simpl.
  destruct (get_data _ _ (store s)) as [[e|df] st]; simpl; [reflexivity|].
  destruct (restrict df _); reflexivity.
Qed.

Lemma update_run : forall (s : State),
    update s =
    let t1 := ticker1_value (widgets s) in
    let t2 := ticker2_value (widgets s) in
    match get_data t1 t2 (store s) with
    | (inr df, st) =>
        match select df plot_columns with
        | inr data =>
            let w := set_source_static_data data
                       (set_source_data data (widgets s)) in
            match select df (stat_columns t1 t2) with
            | inr view =>
                (inr tt,
                 mkState st
                   (set_ts_title_text t1 t2
                      (set_corr_title_text
                         (t1 ++ " returns vs. " ++ t2 ++ " returns")%string
                         (set_stats_text (str (describe view)) w))))
            | inl e => (inl e, mkState st w)
            end
        | inl e => (inl e, mkState st (widgets s))
        end
    | (inl e, st) => (inl e, mkState st (widgets s))
    end.
Proof.
  intros. unfold update, bind, widget, gets, on_store, lift, assign, modify.
  simpl.
  destruct (get_data _ _ (store s)) as [[e|df] st]; simpl; [reflexivity|].
  destruct (select df plot_columns) as [e|data]; simpl; [reflexivity|].
  rewrite update_stats_run. simpl.
  destruct (select df (stat_columns _ _)); reflexivity.
Qed.

Lemma dispatch_selection : forall indices (s : State),
    dispatch (SelectionChanged indices) s =
    selection_change "indices" (source_selected_indices (widgets s)) indices
      (mkState (store s) (set_source_selected_indices indices (widgets s))).
Proof. reflexivity. Qed.

Lemma dispatch_identifier1 : forall new (s : State),
    dispatch (IdentifierChanged Slot1 new) s =
    update (mkState (store s)
              (set_ticker2_options (nix new DEFAULT_TICKERS)
                 (set_ticker1_value new (widgets s)))).
Proof. reflexivity. Qed.

Lemma dispatch_identifier2 : forall new (s : State),
    dispatch (IdentifierChanged Slot2 new) s =
    update (mkState (store s)
              (set_ticker1_options (nix new DEFAULT_TICKERS)
                 (set_ticker2_value new (widgets s)))).
Proof. reflexivity. Qed.
End Running.

(** ** The selection path *)

Section Selection.
Context `{Host}.

(** What a selection change does to the widgets. *)
Lemma selection_change_widgets : forall indices (s : State),
    let w := widgets s in
    let w' := widgets (step (SelectionChanged indices) s) in
    source_data w' = source_data w /\
    source_static_data w' = source_static_data w /\
    ticker1_value w' = ticker1_value w /\
    ticker2_value w' = ticker2_value w /\
    ticker1_options w' = ticker1_options w /\
    ticker2_options w' = ticker2_options w /\
    corr_title_text w' = corr_title_text w /\
    ts1_title_text w' = ts1_title_text w /\
    ts2_title_text w' = ts2_title_text w /\
    source_selected_indices w' = indices.
Proof.
  intros indices s w w'. subst w w'. unfold step.
  rewrite dispatch_selection, selection_change_run. simpl.
  destruct (get_data _ _ (store s)) as [[e|df] st]; simpl;
    [repeat split|].
  destruct (restrict df indices) as [e|data]; simpl; [repeat split|].
  rewrite update_stats_run.
  destruct (select data _); simpl; repeat split.
Qed.


(** C5: with the empty selection the view is the dataset itself (same
    rows, same order), and the selection path publishes exactly what
    summarizing the full dataset publishes. *)
Theorem empty_selection_passes_through : forall (s : State),
    (forall data : DataFrame,
        exists view,
          restrict data [] = inr view /\
          nrows view = nrows data /\ index view = index data /\
          columns view = columns data /\ describe view = describe data) /\
    let t1 := ticker1_value (widgets s) in
    let t2 := ticker2_value (widgets s) in
    let w := set_source_selected_indices [] (widgets s) in
    match get_data t1 t2 (store s) with
    | (inr df, st) =>
        dispatch (SelectionChanged []) s =
        update_stats df t1 t2 (mkState st w)
    | (inl e, st) =>
        dispatch (SelectionChanged []) s = (inl e, mkState st w)
    end.
Proof.
  intro s. split.
  - intro data. exists data. repeat split.
  - rewrite dispatch_selection, selection_change_run. simpl.
    destruct (get_data _ _ (store s)) as [[e|df] st]; reflexivity.
Qed.

Lemma iloc_in_range : forall (df : DataFrame) selected,
    (forall i, In i selected -> i < nrows df) ->
    iloc df selected = inr (take df selected).
Proof.
  intros df selected Hall. unfold iloc.
  replace (forallb _ selected) with true; [reflexivity|].
  symmetry. apply forallb_forall. intros i Hi.
  apply Nat.ltb_lt. apply Hall. exact Hi.
Qed.

Lemma iloc_out_of_range : forall (df : DataFrame) selected i,
    In i selected -> nrows df <= i -> iloc df selected = inl IndexError.
Proof.
  intros df selected i Hi Hout. unfold iloc.
  destruct (forallb _ selected) eqn:F; [|reflexivity].
  rewrite forallb_forall in F. specialize (F i Hi).
  apply Nat.ltb_lt in F. lia.
Qed.

(** C1 (amended): for a non-empty selection, positions all below the row
    count give the rows at exactly those positions, in the order the
    selection lists them, and these are what gets summarized; a position
    at or beyond the row count makes the selection path raise
    [IndexError], and the statistics text is not assigned. *)
Theorem selection_positions_checked :
  forall (s : State) indices df st,
    indices <> [] ->
    get_data (ticker1_value (widgets s)) (ticker2_value (widgets s)) (store s)
    = (inr df, st) ->
    let t1 := ticker1_value (widgets s) in
    let t2 := ticker2_value (widgets s) in
    let w := set_source_selected_indices indices (widgets s) in
    ((forall i, In i indices -> i < nrows df) ->
     restrict df indices = inr (take df indices) /\
     dispatch (SelectionChanged indices) s =
     update_stats (take df indices) t1 t2 (mkState st w)) /\
    ((exists i, In i indices /\ nrows df <= i) ->
     restrict df indices = inl IndexError /\
     dispatch (SelectionChanged indices) s = (inl IndexError, mkState st w) /\
     stats_text (widgets (step (SelectionChanged indices) s)) =
     stats_text (widgets s)).
Proof.
  intros s indices df st Hne Hget t1 t2 w.
  assert (Hr : restrict df indices = iloc df indices).
  { destruct indices; [contradiction|reflexivity]. }
  unfold step. rewrite dispatch_selection, selection_change_run. simpl.
  fold t1 t2. unfold t1, t2. rewrite Hget. fold t1 t2 w. rewrite Hr.
  split.
  - intro Hall. rewrite (iloc_in_range df indices Hall). split; reflexivity.
  - intros [i [Hi Hout]]. rewrite (iloc_out_of_range df indices i Hi Hout).
    repeat split.
Qed.
End Selection.

(** ** The identifier path: mutual exclusion *)

Section Choosers.
Context `{Host}.

Lemma nix_In : forall val x lst, In x (nix val lst) <-> In x lst /\ x <> val.
Proof.
  intros val x lst. unfold nix. rewrite filter_In, negb_true_iff.
  rewrite String.eqb_neq. reflexivity.
Qed.

Lemma nix_excludes : forall val lst, ~ In val (nix val lst).
Proof. intros val lst Hin. apply nix_In in Hin. destruct Hin as [_ Hne]. congruence. Qed.

Lemma update_choosers : forall (s : State),
    let w := widgets s in
    let w' := widgets (snd (update s)) in
    ticker1_value w' = ticker1_value w /\
    ticker1_options w' = ticker1_options w /\
    ticker2_value w' = ticker2_value w /\
    ticker2_options w' = ticker2_options w /\
    source_selected_indices w' = source_selected_indices w.
Proof.
  intro s. simpl. rewrite update_run. simpl.
  destruct (get_data _ _ (store s)) as [[e|df] st]; simpl; [repeat split|].
  destruct (select df plot_columns) as [e|data]; simpl; [repeat split|].
  destruct (select df (stat_columns _ _)); simpl; repeat split.
Qed.

Lemma step_choosers : forall e (s : State),
    let w := widgets s in
    let w' := widgets (step e s) in
    match e with
    | IdentifierChanged Slot1 new =>
        ticker1_value w' = new /\
        ticker1_options w' = ticker1_options w /\
        ticker2_value w' = ticker2_value w /\
        ticker2_options w' = nix new DEFAULT_TICKERS
    | IdentifierChanged Slot2 new =>
        ticker1_value w' = ticker1_value w /\
        ticker1_options w' = nix new DEFAULT_TICKERS /\
        ticker2_value w' = new /\
        ticker2_options w' = ticker2_options w
    | SelectionChanged _ =>
        ticker1_value w' = ticker1_value w /\
        ticker1_options w' = ticker1_options w /\
        ticker2_value w' = ticker2_value w /\
        ticker2_options w' = ticker2_options w
    end.
Proof.
  intros e s. simpl. destruct e as [[|] new|indices].
  - unfold step. rewrite dispatch_identifier1.
    destruct (update_choosers
                (mkState (store s)
                   (set_ticker2_options (nix new DEFAULT_TICKERS)
                      (set_ticker1_value new (widgets s)))))
      as (E1 & E2 & E3 & E4 & _).
    rewrite E1, E2, E3, E4. repeat split.
  - unfold step. rewrite dispatch_identifier2.
    destruct (update_choosers
                (mkState (store s)
                   (set_ticker1_options (nix new DEFAULT_TICKERS)
                      (set_ticker2_value new (widgets s)))))
      as (E1 & E2 & E3 & E4 & _).
    rewrite E1, E2, E3, E4. repeat split.
  - pose proof (selection_change_widgets indices s) as F. simpl in F.
    destruct F as (_ & _ & E1 & E2 & E3 & E4 & _).
    rewrite E1, E2, E3, E4. repeat split.
Qed.

(** C8: after an identifier change to [X] in one slot, the options
    published for the other slot are the whole universe without [X], so
    [X] is not among them; and every transition the choosers offer keeps
    the two choosers exclusive, hence the two identifiers different. *)
Theorem identifier_change_excludes : forall slot X (s : State),
    let s' := step (IdentifierChanged slot X) s in
    other_options slot s' = nix X DEFAULT_TICKERS /\
    ~ In X (other_options slot s') /\
    (forall Y, In Y (other_options slot s') <->
               In Y DEFAULT_TICKERS /\ Y <> X) /\
    (forall e, exclusive s -> offered e s ->
               exclusive (step e s) /\
               ticker1_value (widgets (step e s)) <>
               ticker2_value (widgets (step e s))).
Proof.
  intros slot X s s'.
  assert (E : other_options slot s' = nix X DEFAULT_TICKERS).
  { subst s'. pose proof (step_choosers (IdentifierChanged slot X) s) as C.
    destruct slot; simpl in *; tauto. }
  rewrite E. split; [reflexivity|]. split; [apply nix_excludes|].
  split; [intro Y; apply nix_In|].
  intros e (O1 & O2 & Hne) Hoff.
  assert (Hex : exclusive (step e s)).
  { pose proof (step_choosers e s) as C. unfold exclusive.
    destruct e as [[|] new|indices]; simpl in *.
    - destruct C as (E1 & E2 & E3 & E4). rewrite E1, E2, E3, E4.
      rewrite O1 in Hoff. apply nix_In in Hoff. tauto.
    - destruct C as (E1 & E2 & E3 & E4). rewrite E1, E2, E3, E4.
      rewrite O2 in Hoff. apply nix_In in Hoff.
      repeat split; try tauto. intro. apply (proj2 Hoff). congruence.
    - destruct C as (E1 & E2 & E3 & E4). rewrite E1, E2, E3, E4. tauto. }
  split; [exact Hex | apply Hex].
Qed.
End Choosers.

(** ** The two caches hold what their keys compute *)

Section Coherence.
Context `{Host}.

Lemma load_ticker_run : forall t (s : Store),
    load_ticker t s =
    match cache_find String.eqb t (load_ticker_cache s) with
    | Some df =>
        (inr df,
         set_load_ticker_cache
           (cache_touch String.eqb t df (load_ticker_cache s)) s)
    | None =>
        match files (fname_of t) with
        | None => (inl FileNotFoundError, s)
        | Some rows =>
            (inr (ticker_frame t rows),
             set_load_ticker_cache
               (cache_store maxsize t (ticker_frame t rows)
                  (load_ticker_cache s))
               (emit (ReadCsv (fname_of t)) s))
        end
    end.
Proof.
  intros t s. unfold load_ticker, lru_cache.
  destruct (cache_find String.eqb t (load_ticker_cache s)); [reflexivity|].
  unfold load_ticker_body, bind, read_csv, ret.
  destruct (files (fname_of t)) as [rows|]; reflexivity.
Qed.

Lemma get_data_body_run : forall t1 t2 (s : Store),
    get_data_body (t1, t2) s =
    match load_ticker t1 s with
    | (inl e, s1) => (inl e, s1)
    | (inr df1, s1) =>
        match load_ticker t2 s1 with
        | (inl e, s2) => (inl e, s2)
        | (inr df2, s2) =>
            (assemble t1 t2 df1 df2, emit (Concat t1 t2) s2)
        end
    end.
Proof.
  intros t1 t2 s.
  unfold get_data_body, bind, modify, lift, ret, assemble, label.
  simpl fst. simpl snd.
  destruct (load_ticker t1 s) as [[e|df1] s1]; [reflexivity|].
  destruct (load_ticker t2 s1) as [[e|df2] s2]; [reflexivity|].
  destruct (copy_column (dropna (concat df1 df2)) "t1" t1) as [e|d1];
    [reflexivity|].
  destruct (copy_column d1 "t2" t2) as [e|d2]; [reflexivity|].
  destruct (copy_column d2 "t1_returns" _) as [e|d3]; [reflexivity|].
  destruct (copy_column d3 "t2_returns" _) as [e|d4]; reflexivity.
Qed.

Lemma get_data_run : forall t1 t2 (s : Store),
    get_data t1 t2 s =
    match cache_find pair_eqb (t1, t2) (get_data_cache s) with
    | Some df =>
        (inr df,
         set_get_data_cache
           (cache_touch pair_eqb (t1, t2) df (get_data_cache s)) s)
    | None =>
        match get_data_body (t1, t2) s with
        | (inr df, s') =>
            (inr df,
             set_get_data_cache
               (cache_store maxsize (t1, t2) df (get_data_cache s')) s')
        | (inl e, s') => (inl e, s')
        end
    end.
Proof. reflexivity. Qed.

Lemma load_ticker_coherent : forall t (s : Store),
    coherent s ->
    fst (load_ticker t s) = load_value t /\ coherent (snd (load_ticker t s)) /\
    get_data_cache (snd (load_ticker t s)) = get_data_cache s.
Proof.
  intros t s [Hl Hp]. rewrite load_ticker_run.
  destruct (cache_find String.eqb t (load_ticker_cache s)) as [df|] eqn:F.
  - simpl. split; [symmetry; apply Hl; exact F|]. split; [|reflexivity].
    split; simpl; [|exact Hp].
    intros t' df'. rewrite (cache_find_touch String.eqb String.eqb_eq).
    destruct (String.eqb t' t) eqn:E.
    + apply String.eqb_eq in E. subst t'. intro X. injection X as <-.
      apply Hl. exact F.
    + apply Hl.
  - unfold load_value.
    destruct (files (fname_of t)) as [rows|] eqn:Ff; simpl.
    + split; [reflexivity|]. split; [|reflexivity].
      split; simpl; [|exact Hp].
      intros t' df' X.
      apply (cache_find_store_inv String.eqb String.eqb_eq) in X.
      destruct X as [[-> ->]|X].
      * unfold load_value. rewrite Ff. reflexivity.
      * apply Hl in X. exact X.
    + split; [reflexivity|]. split; [split; assumption | reflexivity].
Qed.

Lemma load_value_data : forall t rows,
    files (fname_of t) = Some rows -> rows <> [] ->
    load_value t = inr (ticker_frame t rows).
Proof.
  intros t rows F Hne. unfold load_value. rewrite F. reflexivity.
Qed.

Lemma get_data_body_coherent : forall t1 t2 (s : Store),
    coherent s ->
    fst (get_data_body (t1, t2) s) = pair_value t1 t2 /\
    coherent (snd (get_data_body (t1, t2) s)) /\
    get_data_cache (snd (get_data_body (t1, t2) s)) = get_data_cache s.
Proof.
  intros t1 t2 s Hc. rewrite get_data_body_run. unfold pair_value.
  destruct (load_ticker_coherent t1 s Hc) as (E1 & C1 & G1).
  destruct (load_ticker t1 s) as [[e|df1] s1]; simpl in E1, C1, G1;
    rewrite <- E1; [simpl; auto|].
  destruct (load_ticker_coherent t2 s1 C1) as (E2 & C2 & G2).
  destruct (load_ticker t2 s1) as [[e|df2] s2]; simpl in E2, C2, G2;
    rewrite <- E2; simpl.
  - split; [reflexivity|]. split; [exact C2 | congruence].
  - split; [reflexivity|]. split; [|congruence].
    destruct C2 as [Hl Hp]. split; simpl; assumption.
Qed.

Lemma get_data_coherent : forall t1 t2 (s : Store),
    coherent s ->
    fst (get_data t1 t2 s) = pair_value t1 t2 /\
    coherent (snd (get_data t1 t2 s)).
Proof.
  intros t1 t2 s Hc. rewrite get_data_run.
  destruct (cache_find pair_eqb (t1, t2) (get_data_cache s)) as [df|] eqn:F.
  - destruct Hc as [Hl Hp]. simpl.
    split; [symmetry; apply Hp; exact F|].
    split; simpl; [exact Hl|].
    intros u1 u2 df'. rewrite (cache_find_touch pair_eqb pair_eqb_eq).
    destruct (pair_eqb (u1, u2) (t1, t2)) eqn:E.
    + apply pair_eqb_eq in E. injection E as -> ->. intro X.
      injection X as <-. apply Hp. exact F.
    + apply Hp.
  - destruct (get_data_body_coherent t1 t2 s Hc) as (E & C & G).
    destruct (get_data_body (t1, t2) s) as [[e|df] s']; simpl in E, C, G;
      simpl; [split; [exact E | exact C]|].
    split; [exact E|]. destruct C as [Hl Hp]. split; simpl; [exact Hl|].
    intros u1 u2 df' X.
    apply (cache_find_store_inv pair_eqb pair_eqb_eq) in X.
    destruct X as [[X ->]|X].
    + injection X as -> ->. symmetry. exact E.
    + apply Hp. exact X.
Qed.

(** A transition changes the caches and the trace by one [get_data] call,
    for the identifier pair the choosers hold afterwards. *)
Lemma step_store : forall e (s : State),
    store (step e s) =
    snd (get_data (ticker1_value (widgets (step e s)))
           (ticker2_value (widgets (step e s))) (store s)).
Proof.
  intros e s.
  assert (U : forall s0 : State,
             store (snd (update s0)) =
             snd (get_data (ticker1_value (widgets s0))
                    (ticker2_value (widgets s0)) (store s0))).
  { intro s0. rewrite update_run. simpl.
    destruct (get_data _ _ (store s0)) as [[e0|df] st]; simpl; [reflexivity|].
    destruct (select df plot_columns) as [e0|data]; simpl; [reflexivity|].
    destruct (select df (stat_columns _ _)); reflexivity. }
  pose proof (step_choosers e s) as C. simpl in C.
  destruct e as [[|] new|indices]; destruct C as (E1 & _ & E3 & _);
    rewrite E1, E3; unfold step.
  - rewrite dispatch_identifier1, U. reflexivity.
  - rewrite dispatch_identifier2, U. reflexivity.
  - rewrite dispatch_selection, selection_change_run. simpl.
    destruct (get_data _ _ (store s)) as [[e0|df] st]; simpl; [reflexivity|].
    destruct (restrict df indices) as [e0|data]; simpl; [reflexivity|].
    rewrite update_stats_run. destruct (select data _); reflexivity.
Qed.

Lemma run_app : forall es e (s : State),
    run (es ++ [e]) s = step e (run es s).
Proof. intros. unfold run. rewrite fold_left_app. reflexivity. Qed.

Lemma init_coherent : coherent (store init).
Proof. split; simpl; intros; discriminate. Qed.

Lemma run_coherent : forall es, coherent (store (run es init)).
Proof.
  intro es. induction es as [|e es IH] using rev_ind.
  - exact init_coherent.
  - rewrite run_app, step_store. apply get_data_coherent. exact IH.
Qed.
End Coherence.

(** ** The joined frame *)

Section Join.
Context `{Host}.

Lemma union_nil_l : forall ys, union [] ys = ys.
Proof. destruct ys; reflexivity. Qed.

Lemma union_nil_r : forall xs, union xs [] = xs.
Proof. destruct xs; reflexivity. Qed.

Lemma union_cons : forall x xs y ys,
    union (x :: xs) (y :: ys) =
    if (x <? y)%Z then x :: union xs (y :: ys)
    else if (y <? x)%Z then y :: union (x :: xs) ys
    else x :: union xs ys.
Proof. reflexivity. Qed.

(** The merged index does not depend on the order of the two frames. *)
Lemma union_comm : forall xs ys, union xs ys = union ys xs.
Proof.
  induction xs as [|x xs IHx]; intro ys.
  - rewrite union_nil_l, union_nil_r. reflexivity.
  - induction ys as [|y ys IHy].
    + rewrite union_nil_l, union_nil_r. reflexivity.
    + rewrite !union_cons.
      destruct (x <? y)%Z eqn:Lxy; destruct (y <? x)%Z eqn:Lyx.
      * apply Z.ltb_lt in Lxy. apply Z.ltb_lt in Lyx. lia.
      * rewrite IHx. reflexivity.
      * rewrite IHy. reflexivity.
      * apply Z.ltb_ge in Lxy. apply Z.ltb_ge in Lyx.
        assert (x = y) by lia. subst y. rewrite IHx. reflexivity.
Qed.

Lemma cell_at_absent : forall d idx (col : list Cell),
    ~ In d idx -> cell_at d idx col = None.
Proof.
  intros d idx. induction idx as [|i idx IH]; intros col Hn; [reflexivity|].
  destruct col as [|x col]; [reflexivity|]. simpl.
  destruct (i =? d)%Z eqn:E.
  - apply Z.eqb_eq in E. exfalso. apply Hn. left. exact E.
  - apply IH. intro Hin. apply Hn. right. exact Hin.
Qed.

Lemma nth_reindex : forall old new (col : list Cell) i,
    i < length new ->
    nth i (reindex old new col) None = cell_at (nth i new 0%Z) old col.
Proof.
  intros old new col i Hi. unfold reindex.
  rewrite (nth_indep _ None (cell_at 0%Z old col)) by (rewrite length_map; exact Hi).
  apply (map_nth (fun d => cell_at d old col)).
Qed.

Lemma dropna_concat : forall t1 t2 rows1 rows2,
    dropna (concat (ticker_frame t1 rows1) (ticker_frame t2 rows2)) =
    mkDF (joined_index rows1 rows2)
      [(t1, joined rows1 rows2 rows1 (map c rows1));
       ((t1 ++ "_returns")%string, joined rows1 rows2 rows1 (diff (map c rows1)));
       (t2, joined rows1 rows2 rows2 (map c rows2));
       ((t2 ++ "_returns")%string, joined rows1 rows2 rows2 (diff (map c rows2)))].
Proof.
  intros. unfold dropna, concat, ticker_frame, take, nrows, joined_index,
    joined, kept. simpl.
  replace (filter (row_complete _) _) with (kept rows1 rows2).
  - reflexivity.
  - unfold kept. apply filter_ext. intro i. unfold row_complete. simpl.
    rewrite andb_true_r, !andb_assoc. reflexivity.
Qed.

Lemma kept_comm : forall rows1 rows2, kept rows1 rows2 = kept rows2 rows1.
Proof.
  intros. unfold kept. rewrite (union_comm (map date rows2)).
  apply filter_ext. intro i. apply andb_comm.
Qed.

Lemma joined_index_comm : forall rows1 rows2,
    joined_index rows1 rows2 = joined_index rows2 rows1.
Proof.
  intros. unfold joined_index. rewrite kept_comm, union_comm. reflexivity.
Qed.

Lemma joined_comm : forall rows1 rows2 own col,
    joined rows1 rows2 own col = joined rows2 rows1 own col.
Proof.
  intros. unfold joined. rewrite kept_comm, union_comm. reflexivity.
Qed.

Lemma kept_disjoint : forall rows1 rows2,
    no_common_date rows1 rows2 -> kept rows1 rows2 = [].
Proof.
  intros rows1 rows2 Hd. unfold kept.
  set (idx := union (map date rows1) (map date rows2)).
  match goal with |- filter ?f ?l = [] =>
    assert (F : forall i, In i l -> f i = false) end.
  { intros i Hi. apply in_seq in Hi. destruct Hi as [_ Hi]. simpl in Hi.
    rewrite !nth_reindex by exact Hi.
    destruct (in_dec Z.eq_dec (nth i idx 0%Z) (map date rows1)) as [Hin|Hout].
    - rewrite (cell_at_absent _ (map date rows2) (map c rows2))
        by (apply Hd; exact Hin).
      simpl. rewrite andb_false_r. reflexivity.
    - rewrite (cell_at_absent _ (map date rows1) (map c rows1)) by exact Hout.
      reflexivity. }
  induction (seq 0 (length idx)) as [|i l IH]; [reflexivity|].
  simpl. rewrite (F i) by (left; reflexivity).
  apply IH. intros j Hj. apply F. right. exact Hj.
Qed.
End Join.

(** ** Column names that do not collide *)

Section Names.
Context `{Host}.
Local Arguments String.eqb : simpl never.
Local Arguments String.append : simpl never.

Lemma eqb_false_sym : forall a b : string, (a =? b) = false -> (b =? a) = false.
Proof. intros a b E. rewrite String.eqb_sym. exact E. Qed.

Ltac names_apart Hc :=
  unfold clean, distinct, existsb in Hc;
  rewrite ?andb_true_iff, ?negb_true_iff, ?orb_false_iff in Hc;
  repeat match type of Hc with _ /\ _ => destruct Hc as [? Hc] end;
  repeat match goal with H : _ /\ _ |- _ => destruct H end;
  repeat match goal with
         | H : (?x =? ?y) = false |- _ =>
             lazymatch goal with
             | _ : (y =? x) = false |- _ => fail
             | _ => pose proof (eqb_false_sym x y H)
             end
         end.

Ltac by_names :=
  repeat (simpl; rewrite ?String.eqb_refl;
          repeat match goal with
                 | H : (_ =? _) = false |- _ => progress (rewrite H)
                 end).

Lemma label_clean : forall t1 t2 idx (a b c' d : list Cell),
    clean t1 t2 = true ->
    label t1 t2
      (mkDF idx [(t1, a); ((t1 ++ "_returns")%string, b);
                 (t2, c'); ((t2 ++ "_returns")%string, d)]) =
    inr (mkDF idx [(t1, a); ((t1 ++ "_returns")%string, b);
                   (t2, c'); ((t2 ++ "_returns")%string, d);
                   ("t1", a); ("t2", c'); ("t1_returns", b);
                   ("t2_returns", d)]).
Proof.
  intros t1 t2 idx a b c' d Hc. names_apart Hc.
  unfold label, copy_column, setitem. by_names. reflexivity.
Qed.

Lemma select_plot_clean : forall t1 t2 idx (a b c' d : list Cell),
    clean t1 t2 = true ->
    select
      (mkDF idx [(t1, a); ((t1 ++ "_returns")%string, b);
                 (t2, c'); ((t2 ++ "_returns")%string, d);
                 ("t1", a); ("t2", c'); ("t1_returns", b);
                 ("t2_returns", d)]) plot_columns =
    inr (mkDF idx [("t1", a); ("t2", c'); ("t1_returns", b);
                   ("t2_returns", d)]).
Proof.
  intros t1 t2 idx a b c' d Hc. names_apart Hc.
  unfold select, plot_columns. by_names. reflexivity.
Qed.


Lemma assemble_clean : forall t1 t2 rows1 rows2,
    clean t1 t2 = true ->
    assemble t1 t2 (ticker_frame t1 rows1) (ticker_frame t2 rows2) =
    inr (pair_frame t1 t2 rows1 rows2).
Proof.
  intros. unfold assemble. rewrite dropna_concat.
  apply label_clean. assumption.
Qed.

Lemma pair_value_clean : forall t1 t2 rows1 rows2,
    clean t1 t2 = true ->
    files (fname_of t1) = Some rows1 -> rows1 <> [] ->
    files (fname_of t2) = Some rows2 -> rows2 <> [] ->
    pair_value t1 t2 = inr (pair_frame t1 t2 rows1 rows2).
Proof.
  intros t1 t2 rows1 rows2 Hc F1 N1 F2 N2. unfold pair_value.
  rewrite (load_value_data t1 rows1 F1 N1), (load_value_data t2 rows2 F2 N2).
  apply assemble_clean. exact Hc.
Qed.

Lemma universe_clean : forall t1 t2,
    In t1 DEFAULT_TICKERS -> In t2 DEFAULT_TICKERS -> t1 <> t2 ->
    clean t1 t2 = true.
Proof.
  intros t1 t2 H1 H2 Hne. unfold DEFAULT_TICKERS in H1, H2.
  repeat (destruct H1 as [<-|H1]; [|]);
    try contradiction;
    repeat (destruct H2 as [<-|H2]; [|]);
    try contradiction; try reflexivity; exfalso; apply Hne; reflexivity.
Qed.
End Names.

(** ** What the builder returns *)

Section Builder.
Context `{Host}.

Lemma get_data_value : forall es t1 t2 rows1 rows2,
    In t1 DEFAULT_TICKERS -> In t2 DEFAULT_TICKERS -> t1 <> t2 ->
    files (fname_of t1) = Some rows1 -> rows1 <> [] ->
    files (fname_of t2) = Some rows2 -> rows2 <> [] ->
    fst (get_data t1 t2 (store (run es init))) =
    inr (pair_frame t1 t2 rows1 rows2).
Proof.
  intros es t1 t2 rows1 rows2 U1 U2 Hne F1 N1 F2 N2.
  destruct (get_data_coherent t1 t2 _ (run_coherent es)) as [E _].
  rewrite E. apply pair_value_clean; try assumption.
  apply universe_clean; assumption.
Qed.

Lemma joins_snoc_read : forall tr f, joins (tr ++ [ReadCsv f]) = joins tr.
Proof.
  intros. unfold joins. rewrite filter_app, length_app. simpl. lia.
Qed.

Lemma joins_snoc_concat : forall tr t1 t2,
    joins (tr ++ [Concat t1 t2]) = S (joins tr).
Proof.
  intros. unfold joins. rewrite filter_app, length_app. simpl. lia.
Qed.

Lemma load_ticker_joins : forall t (s : Store),
    joins (trace (snd (load_ticker t s))) = joins (trace s).
Proof.
  intros t s. rewrite load_ticker_run.
  destruct (cache_find String.eqb t (load_ticker_cache s)); [reflexivity|].
  destruct (files (fname_of t)) as [rows|]; simpl;
    [apply joins_snoc_read | reflexivity].
Qed.

(** A call that misses and whose two loads succeed computes one join. *)
Lemma get_data_miss_joins : forall t1 t2 (s : Store),
    coherent s ->
    cache_find pair_eqb (t1, t2) (get_data_cache s) = None ->
    (exists df1, load_value t1 = inr df1) ->
    (exists df2, load_value t2 = inr df2) ->
    joins (trace (snd (get_data t1 t2 s))) = S (joins (trace s)).
Proof.
  intros t1 t2 s Hc Hmiss [df1 L1] [df2 L2].
  rewrite get_data_run, Hmiss, get_data_body_run.
  destruct (load_ticker_coherent t1 s Hc) as (E1 & C1 & _).
  pose proof (load_ticker_joins t1 s) as J1.
  destruct (load_ticker t1 s) as [[e|d1] s1]; simpl in E1, C1, J1;
    [congruence|].
  destruct (load_ticker_coherent t2 s1 C1) as (E2 & _ & _).
  pose proof (load_ticker_joins t2 s1) as J2.
  destruct (load_ticker t2 s1) as [[e|d2] s2]; simpl in E2, J2;
    [congruence|].
  destruct (assemble t1 t2 d1 d2); simpl;
    rewrite joins_snoc_concat; congruence.
Qed.

(** A call never adds an entry under another key. *)
Lemma get_data_other_key : forall t1 t2 u1 u2 (s : Store),
    pair_eqb (u1, u2) (t1, t2) = false ->
    cache_find pair_eqb (u1, u2) (get_data_cache s) = None ->
    cache_find pair_eqb (u1, u2) (get_data_cache (snd (get_data t1 t2 s))) = None.
Proof.
  intros t1 t2 u1 u2 s Hk Hnone. rewrite get_data_run.
  destruct (cache_find pair_eqb (t1, t2) (get_data_cache s)) as [df|] eqn:F.
  - simpl. rewrite (cache_find_touch pair_eqb pair_eqb_eq), Hk. exact Hnone.
  - assert (G : get_data_cache (snd (get_data_body (t1, t2) s)) =
                get_data_cache s).
    { rewrite get_data_body_run.
      assert (L : forall t (s0 : Store),
                 get_data_cache (snd (load_ticker t s0)) = get_data_cache s0).
      { intros t s0. rewrite load_ticker_run.
        destruct (cache_find String.eqb t (load_ticker_cache s0));
          [reflexivity|].
        destruct (files (fname_of t)) as [rows|]; reflexivity. }
      pose proof (L t1 s) as L1.
      destruct (load_ticker t1 s) as [[e|d1] s1]; simpl in L1; [exact L1|].
      pose proof (L t2 s1) as L2.
      destruct (load_ticker t2 s1) as [[e|d2] s2]; simpl in L2; simpl;
        congruence. }
    destruct (get_data_body (t1, t2) s) as [[e|df] s']; simpl in G; simpl.
    + rewrite G. exact Hnone.
    + apply (cache_find_none_store pair_eqb pair_eqb_eq); [exact Hk|].
      rewrite G. exact Hnone.
Qed.

Lemma column_pair_frame : forall t1 t2 rows1 rows2,
    clean t1 t2 = true ->
    let df := pair_frame t1 t2 rows1 rows2 in
    column "t1" df = Some (joined rows1 rows2 rows1 (map c rows1)) /\
    column "t2" df = Some (joined rows1 rows2 rows2 (map c rows2)) /\
    column "t1_returns" df =
      Some (joined rows1 rows2 rows1 (diff (map c rows1))) /\
    column "t2_returns" df =
      Some (joined rows1 rows2 rows2 (diff (map c rows2))).
Proof.
  intros t1 t2 rows1 rows2 Hc df. subst df.
  unfold clean, distinct, existsb in Hc.
  rewrite ?andb_true_iff, ?negb_true_iff, ?orb_false_iff in Hc.
  destruct Hc as ((A1 & A2 & A3 & A4 & A5 & A6 & A7 & _) &
                  (B2 & B3 & B4 & B5 & B6 & B7 & _) &
                  (C3 & C4 & C5 & C6 & C7 & _) &
                  (D4 & D5 & D6 & D7 & _) & _).
  unfold column, pair_frame, named. cbn [columns filter fst snd].
  rewrite A4, A5, A6, A7, B4, B5, B6, B7, C4, C5, C6, C7, D4, D5, D6, D7.
  repeat split.
Qed.
End Builder.

Section BuilderClaims.
Context `{Host}.

(** C2 (amended): for two distinct identifiers of the universe whose
    series (non-empty files, dates strictly increasing) have no date in
    common, [get_data] raises nothing: it returns a dataset with zero rows
    (every column empty) to its caller. *)
Theorem empty_join_is_returned :
  forall es t1 t2 rows1 rows2,
    In t1 DEFAULT_TICKERS -> In t2 DEFAULT_TICKERS -> t1 <> t2 ->
    files (fname_of t1) = Some rows1 -> rows1 <> [] ->
    files (fname_of t2) = Some rows2 -> rows2 <> [] ->
    well_formed rows1 = true -> well_formed rows2 = true ->
    no_common_date rows1 rows2 ->
    exists df,
      fst (get_data t1 t2 (store (run es init))) = inr df /\
      nrows df = 0 /\ index df = [] /\
      Forall (fun nc => snd nc = []) (columns df).
Proof.
  intros es t1 t2 rows1 rows2 U1 U2 Hne F1 N1 F2 N2 _ _ Hd.
  exists (pair_frame t1 t2 rows1 rows2).
  split; [apply get_data_value; assumption|].
  unfold pair_frame, joined_index, joined, nrows.
  rewrite (kept_disjoint rows1 rows2 Hd). simpl.
  repeat split. repeat constructor.
Qed.

(** C3 (amended): for two distinct identifiers [A], [B] of the universe
    with data (dates strictly increasing, the invariant under which the
    index union is the ordered merge), [get_data A B] followed by
    [get_data B A] gives two
    datasets with the same row count and the same date sequence whose
    level and return columns are swapped.  The cache is keyed on the
    ordered pair: when [(B, A)] has not been asked before, the call in
    swapped order is a miss and computes the join once more. *)
Theorem join_symmetry :
  forall es A B rowsA rowsB,
    In A DEFAULT_TICKERS -> In B DEFAULT_TICKERS -> A <> B ->
    files (fname_of A) = Some rowsA -> rowsA <> [] ->
    files (fname_of B) = Some rowsB -> rowsB <> [] ->
    well_formed rowsA = true -> well_formed rowsB = true ->
    let s := store (run es init) in
    let s1 := snd (get_data A B s) in
    let s2 := snd (get_data B A s1) in
    exists dfAB dfBA,
      fst (get_data A B s) = inr dfAB /\
      fst (get_data B A s1) = inr dfBA /\
      nrows dfAB = nrows dfBA /\
      index dfAB = index dfBA /\
      (exists a, column "t1" dfAB = Some a /\ column "t2" dfBA = Some a) /\
      (exists a, column "t2" dfAB = Some a /\ column "t1" dfBA = Some a) /\
      (exists a, column "t1_returns" dfAB = Some a /\
                 column "t2_returns" dfBA = Some a) /\
      (exists a, column "t2_returns" dfAB = Some a /\
                 column "t1_returns" dfBA = Some a) /\
      (cache_find pair_eqb (B, A) (get_data_cache s) = None ->
       cache_find pair_eqb (B, A) (get_data_cache s1) = None /\
       joins (trace s2) = S (joins (trace s1))).
Proof.
  intros es A B rowsA rowsB UA UB Hne FA NA FB NB _ _ s s1 s2.
  assert (Hne' : B <> A) by congruence.
  pose proof (universe_clean A B UA UB Hne) as CAB.
  pose proof (universe_clean B A UB UA Hne') as CBA.
  destruct (get_data_coherent A B s (run_coherent es)) as [EAB C1].
  fold s1 in C1.
  destruct (get_data_coherent B A s1 C1) as [EBA _].
  rewrite (pair_value_clean A B rowsA rowsB CAB FA NA FB NB) in EAB.
  rewrite (pair_value_clean B A rowsB rowsA CBA FB NB FA NA) in EBA.
  exists (pair_frame A B rowsA rowsB), (pair_frame B A rowsB rowsA).
  destruct (column_pair_frame A B rowsA rowsB CAB) as (P1 & P2 & P3 & P4).
  destruct (column_pair_frame B A rowsB rowsA CBA) as (Q1 & Q2 & Q3 & Q4).
  split; [exact EAB|]. split; [exact EBA|].
  assert (I : index (pair_frame A B rowsA rowsB) =
              index (pair_frame B A rowsB rowsA)).
  { unfold pair_frame. cbn [index]. apply joined_index_comm. }
  split; [unfold nrows; rewrite I; reflexivity|]. split; [exact I|].
  split; [eexists; split; [exact P1 | rewrite Q2, joined_comm; reflexivity]|].
  split; [eexists; split; [exact P2 | rewrite Q1, joined_comm; reflexivity]|].
  split; [eexists; split; [exact P3 | rewrite Q4, joined_comm; reflexivity]|].
  split; [eexists; split; [exact P4 | rewrite Q3, joined_comm; reflexivity]|].
  intro Hmiss.
  assert (K : pair_eqb (B, A) (A, B) = false).
  { unfold pair_eqb. simpl. apply andb_false_iff. left.
    apply String.eqb_neq. exact Hne'. }
  assert (M : cache_find pair_eqb (B, A) (get_data_cache s1) = None).
  { apply get_data_other_key; assumption. }
  split; [exact M|].
  apply get_data_miss_joins; [exact C1 | exact M | |]; eexists;
    [apply (load_value_data B rowsB FB NB) | apply (load_value_data A rowsA FA NA)].
Qed.
End BuilderClaims.

(** ** The identifier path: what is published *)

Section Publishing.
Context `{Host}.

Lemma get_data_cached : forall t1 t2 (s st : Store) df,
    get_data t1 t2 s = (inr df, st) ->
    cache_find pair_eqb (t1, t2) (get_data_cache st) = Some df.
Proof.
  intros t1 t2 s st df. rewrite get_data_run.
  destruct (cache_find pair_eqb (t1, t2) (get_data_cache s)) as [df0|] eqn:F.
  - intro E. injection E as <- <-. simpl.
    rewrite (cache_find_touch pair_eqb pair_eqb_eq).
    rewrite (eqb_same pair_eqb pair_eqb_eq). reflexivity.
  - destruct (get_data_body (t1, t2) s) as [[e|df0] s']; [discriminate|].
    intro E. injection E as <- <-. simpl.
    apply (cache_find_store_same pair_eqb pair_eqb_eq).
Qed.

(** A hit returns the stored frame and leaves the trace alone. *)
Lemma get_data_hit : forall t1 t2 (s : Store) df,
    cache_find pair_eqb (t1, t2) (get_data_cache s) = Some df ->
    fst (get_data t1 t2 s) = inr df /\
    trace (snd (get_data t1 t2 s)) = trace s /\
    load_ticker_cache (snd (get_data t1 t2 s)) = load_ticker_cache s /\
    cache_find pair_eqb (t1, t2) (get_data_cache (snd (get_data t1 t2 s)))
    = Some df.
Proof.
  intros t1 t2 s df F. rewrite get_data_run, F. simpl.
  repeat split.
  rewrite (cache_find_touch pair_eqb pair_eqb_eq).
  rewrite (eqb_same pair_eqb pair_eqb_eq). reflexivity.
Qed.

(** What a completed [update] leaves behind. *)
Lemma update_completed : forall (s : State),
    fst (update s) = inr tt ->
    let t1 := ticker1_value (widgets s) in
    let t2 := ticker2_value (widgets s) in
    let s' := snd (update s) in
    exists df view,
      get_data t1 t2 (store s) = (inr df, store s') /\
      select df plot_columns = inr (source_data (widgets s')) /\
      source_static_data (widgets s') = source_data (widgets s') /\
      select df (stat_columns t1 t2) = inr view /\
      stats_text (widgets s') = str (describe view) /\
      corr_title_text (widgets s') =
        (t1 ++ " returns vs. " ++ t2 ++ " returns")%string /\
      ts1_title_text (widgets s') = t1 /\
      ts2_title_text (widgets s') = t2.
Proof.
  intro s. rewrite update_run. simpl.
  destruct (get_data _ _ (store s)) as [[e|df] st]; simpl; [discriminate|].
  destruct (select df plot_columns) as [e|data] eqn:P; simpl; [discriminate|].
  destruct (select df (stat_columns _ _)) as [e|view] eqn:S; simpl;
    [discriminate|].
  intros _. exists df, view. repeat split; assumption.
Qed.

Lemma dispatch_identifier : forall slot X (s : State),
    dispatch (IdentifierChanged slot X) s = update (after_change slot X s).
Proof. intros [|] X s; reflexivity. Qed.

(** C6 (amended): when an identifier change completes, the changed slot
    holds the new identifier, the dataset has been rebuilt for the new
    pair and published to both data sources, and the published statistics
    are the summary of the full new dataset; the selection is left as it
    was. *)
Theorem identifier_change_publishes : forall es slot X,
    let s := run es init in
    let e := IdentifierChanged slot X in
    fst (dispatch e s) = inr tt ->
    let s' := step e s in
    let t1 := ticker1_value (widgets s') in
    let t2 := ticker2_value (widgets s') in
    match slot with
    | Slot1 => t1 = X /\ t2 = ticker2_value (widgets s)
    | Slot2 => t1 = ticker1_value (widgets s) /\ t2 = X
    end /\
    source_selected_indices (widgets s') =
    source_selected_indices (widgets s) /\
    exists df view,
      pair_value t1 t2 = inr df /\
      select df plot_columns = inr (source_data (widgets s')) /\
      source_static_data (widgets s') = source_data (widgets s') /\
      select df (stat_columns t1 t2) = inr view /\
      stats_text (widgets s') = str (describe view).
Proof.
  intros es slot X s e Hok s' t1 t2. subst t1 t2 s' e. unfold step.
  rewrite dispatch_identifier in *.
  destruct (update_choosers (after_change slot X s))
    as (E1 & _ & E3 & _ & Sel).
  rewrite E1, E3, Sel.
  split; [destruct slot; split; reflexivity|].
  split; [destruct slot; reflexivity|].
  destruct (update_completed _ Hok) as (df & view & G & P & St & S & T & _).
  exists df, view.
  split; [|repeat split; assumption].
  destruct (get_data_coherent
              (ticker1_value (widgets (after_change slot X s)))
              (ticker2_value (widgets (after_change slot X s)))
              (store (after_change slot X s))) as [E _].
  { destruct slot; apply run_coherent. }
  rewrite G in E. simpl in E. symmetry. exact E.
Qed.

(** C10: once an identifier change has completed, every later call of
    the builder for the pair the choosers hold, across any number of
    selection changes, is a cache hit returning the same dataset with no
    file read and no join; the published data source is the plot columns
    of that dataset, and it is that dataset a selection change restricts
    and summarizes. *)
Theorem selection_uses_published_dataset : forall (s : State) slot X,
    fst (dispatch (IdentifierChanged slot X) s) = inr tt ->
    exists df,
    forall sels,
      let s2 := run (map SelectionChanged sels)
                  (step (IdentifierChanged slot X) s) in
      let t1 := ticker1_value (widgets s2) in
      let t2 := ticker2_value (widgets s2) in
      fst (get_data t1 t2 (store s2)) = inr df /\
      trace (snd (get_data t1 t2 (store s2))) = trace (store s2) /\
      select df plot_columns = inr (source_data (widgets s2)) /\
      forall indices,
        dispatch (SelectionChanged indices) s2 =
        let w := set_source_selected_indices indices (widgets s2) in
        let st := snd (get_data t1 t2 (store s2)) in
        match restrict df indices with
        | inr data => update_stats data t1 t2 (mkState st w)
        | inl err => (inl err, mkState st w)
        end.
Proof.
  intros s slot X Hok. rewrite dispatch_identifier in Hok.
  destruct (update_completed _ Hok) as (df & view & G & P & _).
  apply get_data_cached in G.
  exists df. intro sels.
  set (s1 := step (IdentifierChanged slot X) s).
  assert (Inv : forall s2 : State,
             ticker1_value (widgets s2) = ticker1_value (widgets s1) /\
             ticker2_value (widgets s2) = ticker2_value (widgets s1) /\
             source_data (widgets s2) = source_data (widgets s1) /\
             cache_find pair_eqb
               (ticker1_value (widgets s1), ticker2_value (widgets s1))
               (get_data_cache (store s2)) = Some df ->
             forall i,
               let s3 := step (SelectionChanged i) s2 in
               ticker1_value (widgets s3) = ticker1_value (widgets s1) /\
               ticker2_value (widgets s3) = ticker2_value (widgets s1) /\
               source_data (widgets s3) = source_data (widgets s1) /\
               cache_find pair_eqb
                 (ticker1_value (widgets s1), ticker2_value (widgets s1))
                 (get_data_cache (store s3)) = Some df).
  { intros s2 (V1 & V2 & D & F) i s3.
    pose proof (selection_change_widgets i s2) as Fr. simpl in Fr.
    fold s3 in Fr. destruct Fr as (D' & _ & V1' & V2' & _).
    rewrite V1', V2', D', V1, V2, D. repeat split.
    subst s3. rewrite step_store. fold (step (SelectionChanged i) s2).
    rewrite V1', V2', V1, V2.
    apply (get_data_hit _ _ _ _ F). }
  assert (Base : ticker1_value (widgets s1) = ticker1_value (widgets s1) /\
                 ticker2_value (widgets s1) = ticker2_value (widgets s1) /\
                 source_data (widgets s1) = source_data (widgets s1) /\
                 cache_find pair_eqb
                   (ticker1_value (widgets s1), ticker2_value (widgets s1))
                   (get_data_cache (store s1)) = Some df).
  { repeat split. subst s1. unfold step. rewrite dispatch_identifier.
    destruct (update_choosers (after_change slot X s)) as (E1 & _ & E3 & _).
    rewrite E1, E3. exact G. }
  assert (All : forall js (s2 : State),
             (ticker1_value (widgets s2) = ticker1_value (widgets s1) /\
              ticker2_value (widgets s2) = ticker2_value (widgets s1) /\
              source_data (widgets s2) = source_data (widgets s1) /\
              cache_find pair_eqb
                (ticker1_value (widgets s1), ticker2_value (widgets s1))
                (get_data_cache (store s2)) = Some df) ->
             let s3 := run (map SelectionChanged js) s2 in
             ticker1_value (widgets s3) = ticker1_value (widgets s1) /\
             ticker2_value (widgets s3) = ticker2_value (widgets s1) /\
             source_data (widgets s3) = source_data (widgets s1) /\
             cache_find pair_eqb
               (ticker1_value (widgets s1), ticker2_value (widgets s1))
               (get_data_cache (store s3)) = Some df).
  { induction js as [|i js IH]; intros s2 I2; [exact I2|].
    simpl. apply IH. apply Inv. exact I2. }
  destruct (All sels s1 Base) as (V1 & V2 & D & F).
  cbv zeta. rewrite V1, V2.
  destruct (get_data_hit _ _ _ _ F) as (R & T & _ & _).
  split; [exact R|]. split; [exact T|].
  split.
  - rewrite D. subst s1. unfold step. rewrite dispatch_identifier. exact P.
  - intro indices. rewrite dispatch_selection, selection_change_run.
    cbv zeta. cbn [widgets store ticker1_value ticker2_value
                   source_selected_indices set_source_selected_indices].
    rewrite V1, V2.
    destruct (get_data _ _ (store (run _ s1))) as [r st]. simpl in R.
    subst r. reflexivity.
Qed.
End Publishing.

(** ** The series cache over the process lifetime *)

Section CacheKeys.
Context {K A : Type} (eqb : K -> K -> bool).
Hypothesis eqb_eq : forall a b, eqb a b = true <-> a = b.

Lemma cache_find_none_keys : forall (k : K) (cache : list (K * A)),
    cache_find eqb k cache = None -> ~ In k (map fst cache).
Proof.
  intros k cache. unfold cache_find.
  induction cache as [|e cache IH]; simpl; [tauto|].
  destruct (eqb k (fst e)) eqn:E; [discriminate|].
  intros F [X|X].
  - rewrite X in E. rewrite (eqb_same eqb eqb_eq) in E. discriminate.
  - exact (IH F X).
Qed.

Lemma cache_find_some_keys : forall (k : K) (a : A) (cache : list (K * A)),
    cache_find eqb k cache = Some a -> In k (map fst cache).
Proof.
  intros k a cache. unfold cache_find.
  induction cache as [|e cache IH]; simpl; [discriminate|].
  destruct (eqb k (fst e)) eqn:E.
  - intros _. left. symmetry. apply eqb_eq. exact E.
  - intro F. right. exact (IH F).
Qed.

Lemma keys_remove : forall (k : K) (cache : list (K * A)),
    map fst (cache_remove eqb k cache) =
    filter (fun x => negb (eqb k x)) (map fst cache).
Proof.
  intros k cache. unfold cache_remove.
  induction cache as [|e cache IH]; simpl; [reflexivity|].
  destruct (eqb k (fst e)); simpl; rewrite IH; reflexivity.
Qed.

Lemma keys_touch_nodup : forall (k : K) (a : A) (cache : list (K * A)),
    NoDup (map fst cache) ->
    NoDup (map fst (cache_touch eqb k a cache)).
Proof.
  intros k a cache N. unfold cache_touch. simpl. rewrite keys_remove.
  constructor.
  - intro X. apply filter_In in X. destruct X as [_ X].
    rewrite (eqb_same eqb eqb_eq) in X. discriminate.
  - apply NoDup_filter. exact N.
Qed.

Lemma keys_touch_incl : forall (k : K) (a : A) (cache : list (K * A)) x,
    In x (map fst (cache_touch eqb k a cache)) ->
    x = k \/ In x (map fst cache).
Proof.
  intros k a cache x. unfold cache_touch. simpl. rewrite keys_remove.
  intros [X|X]; [left; symmetry; exact X|].
  right. apply filter_In in X. tauto.
Qed.
End CacheKeys.

Section Lifetime.
Context `{Host}.

Lemma append_cancel : forall p a b : string,
    (p ++ a)%string = (p ++ b)%string -> a = b.
Proof.
  induction p as [|x p IH]; intros a b E; simpl in E; [exact E|].
  injection E as E. apply IH. exact E.
Qed.

Lemma fname_of_prefix : exists p, forall t,
    fname_of t = (p ++ "table_" ++ lower t ++ ".csv")%string.
Proof.
  unfold fname_of, join.
  destruct ((DATA_DIR =? "") || ends_with_sep DATA_DIR).
  - exists DATA_DIR. intro t. reflexivity.
  - exists (DATA_DIR ++ "/")%string. intro t. simpl.
    induction DATA_DIR as [|x p IH]; simpl; [reflexivity|].
    f_equal. exact IH.
Qed.

Lemma fname_of_inj : forall t t',
    In t DEFAULT_TICKERS -> In t' DEFAULT_TICKERS ->
    fname_of t = fname_of t' -> t = t'.
Proof.
  intros t t' U U' E. destruct fname_of_prefix as [p P].
  rewrite !P in E. apply append_cancel in E.
  unfold DEFAULT_TICKERS in U, U'.
  repeat (destruct U as [<-|U]; [|]); try contradiction;
    repeat (destruct U' as [<-|U']; [|]); try contradiction;
    try reflexivity; vm_compute in E; discriminate.
Qed.

Lemma reads_snoc_read : forall tr f g,
    reads f (tr ++ [ReadCsv g]) = reads f tr + (if g =? f then 1 else 0).
Proof.
  intros. unfold reads. rewrite filter_app, length_app. simpl.
  destruct (g =? f); reflexivity.
Qed.

Lemma reads_snoc_concat : forall tr f t1 t2,
    reads f (tr ++ [Concat t1 t2]) = reads f tr.
Proof.
  intros. unfold reads. rewrite filter_app, length_app. simpl. lia.
Qed.

Lemma universe_size : length DEFAULT_TICKERS < maxsize.
Proof. unfold maxsize. simpl. lia. Qed.

Lemma tidy_room : forall s : Store,
    tidy s -> length (load_ticker_cache s) < maxsize.
Proof.
  intros s (N & I & _).
  apply Nat.le_lt_trans with (length DEFAULT_TICKERS); [|apply universe_size].
  rewrite <- (length_map fst). apply NoDup_incl_length; [exact N|].
  intros x X. apply I. exact X.
Qed.

Lemma fname_of_other : forall t t',
    In t DEFAULT_TICKERS -> In t' DEFAULT_TICKERS -> (t' =? t) = false ->
    (fname_of t =? fname_of t') = false.
Proof.
  intros t t' U U' E. apply String.eqb_neq. intro X.
  apply fname_of_inj in X; [|assumption|assumption].
  subst t'. rewrite String.eqb_refl in E. discriminate.
Qed.

Lemma load_ticker_tidy : forall t (s : Store),
    In t DEFAULT_TICKERS -> tidy s -> tidy (snd (load_ticker t s)).
Proof.
  intros t s U T. pose proof (tidy_room s T) as Room.
  destruct T as (N & I & R). rewrite load_ticker_run.
  destruct (cache_find String.eqb t (load_ticker_cache s)) as [df|] eqn:F.
  - unfold tidy.
    cbn [snd load_ticker_cache trace set_load_ticker_cache].
    split; [|split].
    + apply (keys_touch_nodup String.eqb String.eqb_eq). exact N.
    + intros x X. apply (keys_touch_incl String.eqb t df) in X.
      destruct X as [->|X]; auto.
    + intros t' rows U' Ft' Ne'. rewrite (R t' rows U' Ft' Ne').
      rewrite (cache_find_touch String.eqb String.eqb_eq).
      destruct (String.eqb t' t) eqn:E; [|reflexivity].
      apply String.eqb_eq in E. subst t'. rewrite F. reflexivity.
  - destruct (files (fname_of t)) as [rows|] eqn:Ft;
      [|split; [|split]; assumption].
    assert (St : cache_store maxsize t (ticker_frame t rows)
                   (load_ticker_cache s) =
                 (t, ticker_frame t rows) :: load_ticker_cache s).
    { unfold cache_store. apply Nat.ltb_lt in Room. rewrite Room.
      reflexivity. }
    unfold tidy.
    cbn [snd load_ticker_cache trace set_load_ticker_cache emit].
    split; [|split].
    + rewrite St. cbn [map fst]. constructor; [|exact N].
      apply (cache_find_none_keys String.eqb String.eqb_eq). exact F.
    + rewrite St. cbn [map fst]. intros x [<-|X]; auto.
    + intros t' rows' U' Ft' Ne'.
      rewrite reads_snoc_read, (R t' rows' U' Ft' Ne').
      destruct (String.eqb t' t) eqn:E.
      * apply String.eqb_eq in E. subst t'.
        rewrite (cache_find_store_same String.eqb String.eqb_eq), F.
        rewrite String.eqb_refl. reflexivity.
      * rewrite (cache_find_store_other String.eqb) by assumption.
        rewrite (fname_of_other t t' U U' E). lia.
Qed.

Lemma get_data_tidy : forall t1 t2 (s : Store),
    In t1 DEFAULT_TICKERS -> In t2 DEFAULT_TICKERS ->
    tidy s -> tidy (snd (get_data t1 t2 s)).
Proof.
  intros t1 t2 s U1 U2 T. rewrite get_data_run.
  destruct (cache_find pair_eqb (t1, t2) (get_data_cache s));
    [exact T|].
  assert (B : tidy (snd (get_data_body (t1, t2) s))).
  { rewrite get_data_body_run.
    pose proof (load_ticker_tidy t1 s U1 T) as T1.
    destruct (load_ticker t1 s) as [[e|d1] s1]; simpl in T1; [exact T1|].
    pose proof (load_ticker_tidy t2 s1 U2 T1) as T2.
    destruct (load_ticker t2 s1) as [[e|d2] s2]; simpl in T2; [exact T2|].
    simpl. destruct T2 as (N & I & R). split; [|split]; simpl; try assumption.
    intros t rows U F Ne. rewrite reads_snoc_concat. apply (R t rows U F Ne). }
  destruct (get_data_body (t1, t2) s) as [[e|df] s']; simpl in B; simpl;
    exact B.
Qed.

Lemma step_values : forall e (s : State),
    in_universe e -> values_in_universe s -> values_in_universe (step e s).
Proof.
  intros e s Ue [V1 V2]. pose proof (step_choosers e s) as C. simpl in C.
  unfold values_in_universe.
  destruct e as [[|] new|indices]; destruct C as (E1 & _ & E3 & _);
    rewrite E1, E3; simpl in Ue; split; assumption.
Qed.

Lemma run_tidy : forall es,
    Forall in_universe es ->
    tidy (store (run es init)) /\ values_in_universe (run es init).
Proof.
  intro es. induction es as [|e es IH] using rev_ind; intro Ues.
  - split.
    + split; [constructor|]. split; simpl; [tauto|].
      intros. reflexivity.
    + split; simpl; tauto.
  - apply Forall_app in Ues. destruct Ues as [Ues Ue].
    inversion Ue as [|? ? Ue' _]; subst.
    destruct (IH Ues) as [T Vs]. rewrite run_app.
    pose proof (step_values e _ Ue' Vs) as Vs'.
    split; [|exact Vs'].
    rewrite step_store. destruct Vs'. apply get_data_tidy; assumption.
Qed.

(** C4: in every state the process reaches, for an identifier of the
    universe with backing data: its file has been read at most once; a
    call of [load_ticker] returns the series of that file; the call reads
    the file when the series is not cached yet (the first call), and
    otherwise returns the cached frame without any read, as does every
    call after it; after the call the file has been read exactly once. *)
Theorem series_read_once : forall es t rows,
    Forall in_universe es ->
    In t DEFAULT_TICKERS ->
    files (fname_of t) = Some rows -> rows <> [] ->
    let s := store (run es init) in
    let s' := snd (load_ticker t s) in
    reads (fname_of t) (trace s) <= 1 /\
    fst (load_ticker t s) = inr (ticker_frame t rows) /\
    (cache_find String.eqb t (load_ticker_cache s) = None ->
     reads (fname_of t) (trace s) = 0 /\
     trace s' = trace s ++ [ReadCsv (fname_of t)]) /\
    (forall df, cache_find String.eqb t (load_ticker_cache s) = Some df ->
                df = ticker_frame t rows /\ trace s' = trace s) /\
    cache_find String.eqb t (load_ticker_cache s') =
      Some (ticker_frame t rows) /\
    fst (load_ticker t s') = fst (load_ticker t s) /\
    trace (snd (load_ticker t s')) = trace s' /\
    reads (fname_of t) (trace s') = 1.
Proof.
  intros es t rows Ues U F Ne s s'.
  destruct (run_tidy es Ues) as [T _]. fold s in T.
  pose proof (run_coherent es) as Co. fold s in Co.
  pose proof (load_ticker_tidy t s U T) as T'. fold s' in T'.
  destruct (load_ticker_coherent t s Co) as (V & Co' & _). fold s' in Co'.
  rewrite (load_value_data t rows F Ne) in V.
  destruct T as (_ & _ & R). pose proof (R t rows U F Ne) as Rt.
  destruct T' as (_ & _ & R'). pose proof (R' t rows U F Ne) as Rt'.
  assert (Cached : cache_find String.eqb t (load_ticker_cache s') =
                   Some (ticker_frame t rows)).
  { subst s'. rewrite load_ticker_run.
    destruct (cache_find String.eqb t (load_ticker_cache s)) as [df|] eqn:C.
    - simpl. rewrite (cache_find_touch String.eqb String.eqb_eq).
      rewrite String.eqb_refl. f_equal.
      rewrite load_ticker_run, C in V. simpl in V. congruence.
    - rewrite F. simpl.
      apply (cache_find_store_same String.eqb String.eqb_eq). }
  split; [rewrite Rt; destruct (cache_find _ _ _); lia|].
  split; [exact V|].
  split.
  { intro C. rewrite C in Rt. split; [exact Rt|].
    subst s'. rewrite load_ticker_run, C, F. reflexivity. }
  split.
  { intros df C. subst s'. rewrite load_ticker_run, C in V |- *.
    simpl in V. simpl. split; [congruence | reflexivity]. }
  split; [exact Cached|].
  split.
  { rewrite V. rewrite (load_ticker_run t s'), Cached. reflexivity. }
  split.
  { rewrite (load_ticker_run t s'), Cached. reflexivity. }
  rewrite Rt', Cached. reflexivity.
Qed.
End Lifetime.

(** ** The concrete scenario *)

Section Scenario.
Context {host : @Host ZPandas}.
Local Arguments Z.ltb : simpl never.
Local Arguments Z.eqb : simpl never.
Local Arguments Z.sub : simpl never.

Lemma scenario_pair_frame : forall d1 d2 d3 : Z,
    (d1 < d2)%Z -> (d2 < d3)%Z ->
    pair_frame "A" "B" (series_A d1 d2 d3) (series_B d1 d2 d3) =
    scenario_frame d2 d3.
Proof.
  intros d1 d2 d3 L12 L23.
  assert (E12 : (d1 =? d2)%Z = false) by (apply Z.eqb_neq; lia).
  assert (E13 : (d1 =? d3)%Z = false) by (apply Z.eqb_neq; lia).
  assert (E23 : (d2 =? d3)%Z = false) by (apply Z.eqb_neq; lia).
  unfold pair_frame, joined_index, joined, kept, reindex, series_A, series_B,
    scenario_frame, quote_row.
  cbn [map date c]. rewrite !union_cons, !Z.ltb_irrefl, union_nil_l.
  cbn [length seq map cell_at diff diff_from sub_cell].
  rewrite !Z.eqb_refl, E12, E13, E23.
  cbn [filter nth is_present andb map sub].
  reflexivity.
Qed.
End Scenario.

Section ScenarioClaim.
Local Existing Instance ZPandas.
Context {host : @Host ZPandas}.

(** C9: with series A = (d1,10),(d2,12),(d3,11) and
    B = (d1,20),(d2,19),(d3,22) on increasing dates, the returns of both
    series are undefined at d1, and [get_data "A" "B"] returns exactly
    two rows: d2 with A=12, B=19, A_returns=2, B_returns=-1 and d3 with
    A=11, B=22, A_returns=-1, B_returns=3 (the same values under t1, t2,
    t1_returns, t2_returns); the count of every summarized column over
    the full dataset is 2. *)
Theorem scenario_A_B : forall es (d1 d2 d3 : Z),
    (d1 < d2)%Z -> (d2 < d3)%Z ->
    files (fname_of "A") = Some (series_A d1 d2 d3) ->
    files (fname_of "B") = Some (series_B d1 d2 d3) ->
    load_value "A" =
      inr (@mkDF ZPandas [d1; d2; d3]
             [("A", [Some 10; Some 12; Some 11]);
              ("A_returns", [None; Some 2; Some (-1)])]%Z) /\
    load_value "B" =
      inr (@mkDF ZPandas [d1; d2; d3]
             [("B", [Some 20; Some 19; Some 22]);
              ("B_returns", [None; Some (-1); Some 3])]%Z) /\
    fst (get_data "A" "B" (store (run es init))) =
      inr (scenario_frame d2 d3) /\
    index (scenario_frame d2 d3) = [d2; d3] /\
    ~ In d1 (index (scenario_frame d2 d3)) /\
    nrows (scenario_frame d2 d3) = 2 /\
    exists view,
      select (scenario_frame d2 d3) (stat_columns "A" "B") = inr view /\
      map (fun e => (fst e, count (snd e))) (describe view) =
      [("A", 2); ("B", 2); ("A_returns", 2); ("B_returns", 2)].
Proof.
  intros es d1 d2 d3 L12 L23 FA FB.
  assert (NA : series_A d1 d2 d3 <> []) by discriminate.
  assert (NB : series_B d1 d2 d3 <> []) by discriminate.
  split; [unfold load_value; rewrite FA; reflexivity|].
  split; [unfold load_value; rewrite FB; reflexivity|].
  split.
  { destruct (get_data_coherent "A" "B" _ (run_coherent es)) as [E _].
    rewrite E.
    rewrite (pair_value_clean "A" "B" _ _ eq_refl FA NA FB NB).
    rewrite scenario_pair_frame by assumption. reflexivity. }
  split; [reflexivity|].
  split; [simpl; intros [X|[X|[]]]; lia|].
  split; [reflexivity|].
  eexists. split; reflexivity.
Qed.
End ScenarioClaim.

(** ** The statements at concrete inputs *)

(** The in-range case on the opening dataset of [market_host]. *)
Lemma selection_positions_checked_witness :
  @restrict ZPandas market_frame [1; 0] = inr (take market_frame [1; 0]).
Proof.
  assert (Hne : [1; 0] <> @nil nat) by discriminate.
  assert (Hget : @get_data ZPandas market_host
                   (ticker1_value (widgets market_open))
                   (ticker2_value (widgets market_open)) (store market_open) =
                 (inr market_frame,
                  snd (@get_data ZPandas market_host "AAPL" "GOOG"
                         (store market_open)))).
  { vm_compute. reflexivity. }
  destruct (@selection_positions_checked ZPandas market_host market_open
              [1; 0] market_frame _ Hne Hget) as [Hin _].
  apply Hin. intros i [<-|[<-|[]]]; vm_compute; lia.
Defined.

(** C1 fails as stated: on the two-row opening dataset, the selection
    [0; 5] is not restricted to position 0; the handler raises. *)
Lemma selection_out_of_range_raises :
  nrows market_frame = 2 /\
  @restrict ZPandas market_frame [0; 5] = inl IndexError /\
  fst (@dispatch ZPandas market_host (SelectionChanged [0; 5]) market_open) =
  inl IndexError.
Proof. vm_compute. repeat split. Qed.

(** AAPL and INTC of [market_host] share no date. *)
Lemma empty_join_is_returned_witness :
  exists df,
    fst (@get_data ZPandas market_host "AAPL" "INTC"
           (store (@run ZPandas market_host [] (@init ZPandas)))) = inr df /\
    nrows df = 0 /\ index df = [] /\
    Forall (fun nc => snd nc = []) (columns df).
Proof.
  apply (@empty_join_is_returned ZPandas market_host [] "AAPL" "INTC"
           (series_A 1 2 3) [quote_row 7 30; quote_row 8 31]).
  - simpl. auto.
  - simpl. auto.
  - discriminate.
  - reflexivity.
  - discriminate.
  - reflexivity.
  - discriminate.
  - reflexivity.
  - reflexivity.
  - intros d [<-|[<-|[<-|[]]]] [X|[X|[]]]; discriminate.
Defined.

(** C2 fails as stated: AAPL and INTC share no date, and the builder
    returns a frame (of zero rows) instead of raising. *)
Lemma empty_join_raises_nothing :
  match fst (@get_data ZPandas market_host "AAPL" "INTC"
               (store (@init ZPandas))) with
  | inr df => nrows df = 0
  | inl _ => False
  end.
Proof. vm_compute. reflexivity. Qed.

(** AAPL and GOOG of [market_host], in both orders. *)
Lemma join_symmetry_witness :
  let s := store (@run ZPandas market_host [] (@init ZPandas)) in
  let s1 := snd (@get_data ZPandas market_host "AAPL" "GOOG" s) in
  let s2 := snd (@get_data ZPandas market_host "GOOG" "AAPL" s1) in
  exists dfAB dfBA,
    fst (@get_data ZPandas market_host "AAPL" "GOOG" s) = inr dfAB /\
    fst (@get_data ZPandas market_host "GOOG" "AAPL" s1) = inr dfBA /\
    nrows dfAB = nrows dfBA /\
    index dfAB = index dfBA /\
    (exists a, column "t1" dfAB = Some a /\ column "t2" dfBA = Some a) /\
    (exists a, column "t2" dfAB = Some a /\ column "t1" dfBA = Some a) /\
    (exists a, column "t1_returns" dfAB = Some a /\
               column "t2_returns" dfBA = Some a) /\
    (exists a, column "t2_returns" dfAB = Some a /\
               column "t1_returns" dfBA = Some a) /\
    (cache_find pair_eqb ("GOOG", "AAPL") (get_data_cache s) = None ->
     cache_find pair_eqb ("GOOG", "AAPL") (get_data_cache s1) = None /\
     joins (trace s2) = S (joins (trace s1))).
Proof.
  apply (@join_symmetry ZPandas market_host [] "AAPL" "GOOG"
           (series_A 1 2 3) (series_B 1 2 3)).
  - simpl. auto.
  - simpl. auto.
  - discriminate.
  - reflexivity.
  - discriminate.
  - reflexivity.
  - discriminate.
  - reflexivity.
  - reflexivity.
Defined.

(** C3 fails as stated: after [get_data "AAPL" "GOOG"], the call in
    swapped order finds nothing under its key and joins again. *)
Lemma swapped_order_joins_again :
  let s1 := snd (@get_data ZPandas market_host "AAPL" "GOOG"
                   (store (@init ZPandas))) in
  let s2 := snd (@get_data ZPandas market_host "GOOG" "AAPL" s1) in
  trace s1 =
    [ReadCsv "daily/table_aapl.csv"; ReadCsv "daily/table_goog.csv";
     Concat "AAPL" "GOOG"] /\
  trace s2 = trace s1 ++ [Concat "GOOG" "AAPL"] /\
  joins (trace s2) <> joins (trace s1).
Proof. vm_compute. repeat split. discriminate. Qed.

(** BRCM after the first chooser has been set to it: the series is cached
    and a further load reads nothing. *)
Lemma series_read_once_witness :
  let s := store (@run ZPandas market_host
                    [IdentifierChanged Slot1 "BRCM"] (@init ZPandas)) in
  let s' := snd (@load_ticker ZPandas market_host "BRCM" s) in
  reads (@fname_of ZPandas market_host "BRCM") (trace s) <= 1 /\
  reads (@fname_of ZPandas market_host "BRCM") (trace s') = 1 /\
  trace s' = trace s.
Proof.
  destruct (@series_read_once ZPandas market_host
              [IdentifierChanged Slot1 "BRCM"] "BRCM"
              [quote_row 2 5; quote_row 3 6; quote_row 4 8])
    as (Le & _ & _ & Hit & _ & _ & _ & One).
  - constructor; [simpl; auto 10 | constructor].
  - simpl. auto 10.
  - reflexivity.
  - discriminate.
  - split; [exact Le|]. split; [exact One|].
    apply (Hit (ticker_frame "BRCM"
                  [quote_row 2 5; quote_row 3 6; quote_row 4 8])).
    vm_compute. reflexivity.
Defined.

(** The first chooser of [market_host] set to BRCM. *)
Lemma identifier_change_publishes_witness :
  let s := @run ZPandas market_host [] (@init ZPandas) in
  let s' := @step ZPandas market_host (IdentifierChanged Slot1 "BRCM") s in
  ticker1_value (widgets s') = "BRCM" /\
  source_selected_indices (widgets s') = source_selected_indices (widgets s).
Proof.
  destruct (@identifier_change_publishes ZPandas market_host []
              Slot1 "BRCM") as ([V _] & Sel & _).
  - vm_compute. reflexivity.
  - split; [exact V | exact Sel].
Defined.

(** C6 fails as stated: with position 0 selected, a completed change of
    the first identifier to BRCM leaves position 0 selected. *)
Lemma selection_survives_identifier_change :
  let s := @step ZPandas market_host (SelectionChanged [0]) market_open in
  let e := IdentifierChanged Slot1 "BRCM" in
  fst (@dispatch ZPandas market_host e s) = inr tt /\
  source_selected_indices (widgets (@step ZPandas market_host e s)) = [0] /\
  source_selected_indices (widgets (@step ZPandas market_host e s)) <> [].
Proof. vm_compute. repeat split. discriminate. Qed.

(** The initial choosers stay exclusive when the first one is set to INTC. *)
Lemma identifier_change_excludes_witness :
  @exclusive ZPandas
    (@step ZPandas market_host (IdentifierChanged Slot1 "INTC") (@init ZPandas)).
Proof.
  destruct (@identifier_change_excludes ZPandas market_host Slot1 "INTC"
              (@init ZPandas)) as (_ & _ & _ & Keep).
  apply (Keep (IdentifierChanged Slot1 "INTC")).
  - repeat split. discriminate.
  - vm_compute. auto 10.
Defined.

(** The scenario on the dates 1, 2, 3. *)
Lemma scenario_A_B_witness :
  fst (@get_data ZPandas scenario_host "A" "B"
         (store (@run ZPandas scenario_host [] (@init ZPandas)))) =
  inr (scenario_frame 2 3).
Proof.
  destruct (@scenario_A_B scenario_host [] 1 2 3)%Z as (_ & _ & G & _).
  - lia.
  - lia.
  - reflexivity.
  - reflexivity.
  - exact G.
Defined.

(** Two selection changes after the first chooser is set to BRCM. *)
Lemma selection_uses_published_dataset_witness :
  exists df : @DataFrame ZPandas,
    let s2 := @run ZPandas market_host (map SelectionChanged [[0]; [1; 0]])
                (@step ZPandas market_host (IdentifierChanged Slot1 "BRCM")
                   (@init ZPandas)) in
    fst (@get_data ZPandas market_host (ticker1_value (widgets s2))
           (ticker2_value (widgets s2)) (store s2)) = inr df /\
    select df plot_columns = inr (source_data (widgets s2)).
Proof.
  destruct (@selection_uses_published_dataset ZPandas market_host
              (@init ZPandas) Slot1 "BRCM") as [df P].
  - vm_compute. reflexivity.
  - exists df. destruct (P [[0]; [1; 0]]) as (G & _ & S & _).
    split; [exact G | exact S].
Defined.

(** * Further properties of the module *)

(** ** [nix] *)

Section Nix.

Lemma nix_absent : forall val lst, ~ In val lst -> nix val lst = lst.
Proof.
  intros val lst. unfold nix.
  induction lst as [|x lst IH]; intro Hn; [reflexivity|]. simpl.
  destruct (x =? val) eqn:E.
  - apply String.eqb_eq in E. exfalso. apply Hn. left. exact E.
  - simpl. f_equal. apply IH. intro X. apply Hn. right. exact X.
Qed.

Lemma nix_app : forall val xs ys,
    nix val (xs ++ ys) = nix val xs ++ nix val ys.
Proof. intros. unfold nix. apply filter_app. Qed.

(** X1: on a list without repetition, [nix val] keeps the other entries
    in their order without repetition: it returns the list itself when
    [val] is not in it, and otherwise the entries before [val] followed
    by the entries after it, exactly one entry fewer; for an identifier
    of the universe a chooser is thus offered the four other
    identifiers. *)
Theorem nix_drops_one : forall val lst,
    NoDup lst ->
    NoDup (nix val lst) /\
    (forall x, In x (nix val lst) <-> In x lst /\ x <> val) /\
    (~ In val lst -> nix val lst = lst) /\
    (forall before after,
        lst = before ++ val :: after -> nix val lst = before ++ after) /\
    (In val lst -> S (length (nix val lst)) = length lst) /\
    (In val DEFAULT_TICKERS -> length (nix val DEFAULT_TICKERS) = 4).
Proof.
  intros val lst N.
  assert (Cut : forall before after,
             lst = before ++ val :: after -> nix val lst = before ++ after).
  { intros before after E. subst lst.
    apply NoDup_remove in N. destruct N as [_ Hn].
    rewrite nix_app.
    change (nix val (val :: after))
      with (if negb (val =? val) then val :: nix val after
            else nix val after).
    rewrite String.eqb_refl. cbn [negb].
    rewrite (nix_absent val before), (nix_absent val after); [reflexivity| |];
      intro X; apply Hn; apply in_or_app; [right | left]; exact X. }
  split; [unfold nix; apply NoDup_filter; exact N|].
  split.
  { intro x. unfold nix. rewrite filter_In, negb_true_iff, String.eqb_neq.
    reflexivity. }
  split; [apply nix_absent|].
  split; [exact Cut|].
  split.
  { intro Hin. apply in_split in Hin. destruct Hin as [before [after E]].
    rewrite (Cut before after E), E, !length_app. simpl. lia. }
  intro U. unfold DEFAULT_TICKERS in U.
  repeat (destruct U as [<-|U]; [reflexivity|]). contradiction.
Qed.
End Nix.

(** ** [load_ticker] *)

Section Series.
Context `{Host}.

Lemma length_diff_from : forall prev (xs : list Cell),
    length (diff_from prev xs) = length xs.
Proof.
  intros prev xs. revert prev.
  induction xs as [|x xs IH]; intro prev; simpl; [reflexivity|].
  rewrite IH. reflexivity.
Qed.

Lemma nth_diff_from : forall (xs : list Cell) prev i,
    i < length xs ->
    nth i (diff_from prev xs) None =
    sub_cell (nth i xs None)
             (match i with 0 => prev | S j => nth j xs None end).
Proof.
  induction xs as [|x xs IH]; intros prev i Hi; simpl in Hi; [lia|].
  destruct i as [|i]; [reflexivity|]. simpl.
  rewrite IH by lia. destruct i; reflexivity.
Qed.

Lemma not_cached_when_failing : forall (s : Store) t e,
    coherent s -> load_value t = inl e ->
    cache_find String.eqb t (load_ticker_cache s) = None.
Proof.
  intros s t e [Hl _] L.
  destruct (cache_find _ _ _) as [df|] eqn:F; [|reflexivity].
  apply Hl in F. congruence.
Qed.

(** X2: wherever the process stands, [load_ticker] on a file with data
    returns the frame indexed by the file's dates, in file order, with
    the two columns [ticker] (the closing values) and
    [ticker + '_returns']; the returns column is as long as the file, is
    NaN on the first line, and on every later line is the closing value
    minus the one of the line before (NaN when either is). *)
Theorem load_ticker_frame : forall es t rows,
    files (fname_of t) = Some rows -> rows <> [] ->
    exists returns,
      fst (load_ticker t (store (run es init))) =
        inr (mkDF (map date rows)
               [(t, map c rows); ((t ++ "_returns")%string, returns)]) /\
      length returns = length rows /\
      nth 0 returns None = None /\
      forall i, S i < length rows ->
                nth (S i) returns None =
                sub_cell (nth (S i) (map c rows) None) (nth i (map c rows) None).
Proof.
  intros es t rows F Ne.
  destruct (load_ticker_coherent t _ (run_coherent es)) as (E & _ & _).
  rewrite (load_value_data t rows F Ne) in E.
  exists (diff (map c rows)). split; [exact E|].
  destruct rows as [|r rows]; [contradiction|]. simpl.
  split; [rewrite length_diff_from, length_map; reflexivity|].
  split; [reflexivity|].
  intros i Hi. rewrite nth_diff_from by (rewrite length_map; lia).
  destruct i; reflexivity.
Qed.

Lemma load_ticker_failing : forall (s : Store) t,
    coherent s ->
    files (fname_of t) = None ->
    load_ticker t s = (inl FileNotFoundError, s).
Proof.
  intros s t Co F. rewrite load_ticker_run.
  rewrite (not_cached_when_failing s t FileNotFoundError Co)
    by (unfold load_value; rewrite F; reflexivity).
  rewrite F. reflexivity.
Qed.

Lemma load_ticker_caches : forall (s : Store) t rows,
    coherent s -> files (fname_of t) = Some rows ->
    cache_find String.eqb t (load_ticker_cache (snd (load_ticker t s))) =
    Some (ticker_frame t rows).
Proof.
  intros s t rows Co F. rewrite load_ticker_run.
  destruct (cache_find String.eqb t (load_ticker_cache s)) as [d|] eqn:X.
  - simpl. rewrite (cache_find_touch String.eqb String.eqb_eq).
    rewrite String.eqb_refl. f_equal.
    destruct Co as [Hl _]. apply Hl in X. unfold load_value in X.
    rewrite F in X. congruence.
  - rewrite F. simpl.
    apply (cache_find_store_same String.eqb String.eqb_eq).
Qed.

(** X3: only a failed load is not remembered.  When the file is missing,
    [load_ticker] raises [FileNotFoundError] and leaves the caches and
    the trace exactly as they were, so the next call tries again and
    fails the same way.  A file without any line is no failure: the call
    returns the frame without rows (both columns empty), caches it like
    any other, and the next call reads nothing. *)
Theorem load_ticker_failure_not_cached : forall es t,
    let s := store (run es init) in
    let s' := snd (load_ticker t s) in
    (files (fname_of t) = None ->
     load_ticker t s = (inl FileNotFoundError, s) /\
     cache_find String.eqb t (load_ticker_cache s') = None /\
     load_ticker t s' = (inl FileNotFoundError, s)) /\
    (files (fname_of t) = Some [] ->
     fst (load_ticker t s) =
       inr (mkDF [] [(t, []); ((t ++ "_returns")%string, [])]) /\
     cache_find String.eqb t (load_ticker_cache s') =
       Some (mkDF [] [(t, []); ((t ++ "_returns")%string, [])]) /\
     fst (load_ticker t s') = fst (load_ticker t s) /\
     trace (snd (load_ticker t s')) = trace s').
Proof.
  intros es t s s'.
  assert (Co : coherent s) by apply run_coherent.
  split; intro F.
  - pose proof (load_ticker_failing s t Co F) as R.
    subst s'. rewrite R. cbn [snd].
    split; [reflexivity|]. split; [|exact R].
    apply (not_cached_when_failing s t FileNotFoundError Co).
    unfold load_value. rewrite F. reflexivity.
  - destruct (load_ticker_coherent t s Co) as (E & _ & _).
    unfold load_value in E. rewrite F in E.
    pose proof (load_ticker_caches s t [] Co F) as C. fold s' in C.
    split; [exact E|]. split; [exact C|].
    rewrite (load_ticker_run t s'), C. split; [rewrite E|]; reflexivity.
Qed.

Lemma fname_of_lower : forall t1 t2,
    lower t1 = lower t2 -> fname_of t1 = fname_of t2.
Proof. intros t1 t2 E. unfold fname_of. rewrite E. reflexivity. Qed.

(** X4: the file name is built from the lower-cased ticker but the cache
    is keyed by the ticker as written.  Two different spellings of one
    ticker name the same file, and loading one after the other from an
    empty cache reads that file twice and gives two frames that differ
    only in their column names. *)
Theorem spellings_share_file_not_cache : forall t1 t2 rows,
    lower t1 = lower t2 -> t1 <> t2 ->
    files (fname_of t1) = Some rows -> rows <> [] ->
    let s1 := snd (load_ticker t1 (store init)) in
    let s2 := snd (load_ticker t2 s1) in
    fname_of t1 = fname_of t2 /\
    fst (load_ticker t1 (store init)) = inr (ticker_frame t1 rows) /\
    fst (load_ticker t2 s1) = inr (ticker_frame t2 rows) /\
    trace s2 = [ReadCsv (fname_of t1); ReadCsv (fname_of t1)] /\
    reads (fname_of t1) (trace s2) = 2 /\
    map fst (load_ticker_cache s2) = [t2; t1].
Proof.
  intros t1 t2 rows L Hne F Ne s1 s2.
  pose proof (fname_of_lower t1 t2 L) as Fn.
  assert (F2 : files (fname_of t2) = Some rows) by (rewrite <- Fn; exact F).
  destruct rows as [|r rows]; [contradiction|].
  assert (R1 : load_ticker t1 (store init) =
               (inr (ticker_frame t1 (r :: rows)),
                mkStore [(t1, ticker_frame t1 (r :: rows))] []
                  [ReadCsv (fname_of t1)])).
  { rewrite load_ticker_run. simpl. rewrite F. reflexivity. }
  assert (E : (t2 =? t1) = false).
  { apply String.eqb_neq. congruence. }
  assert (R2 : load_ticker t2 s1 =
               (inr (ticker_frame t2 (r :: rows)),
                mkStore [(t2, ticker_frame t2 (r :: rows));
                         (t1, ticker_frame t1 (r :: rows))] []
                  [ReadCsv (fname_of t1); ReadCsv (fname_of t1)])).
  { subst s1. rewrite R1. rewrite load_ticker_run. simpl.
    unfold cache_find. simpl. rewrite E, F2, <- Fn. reflexivity. }
  subst s2. rewrite R2, R1. simpl.
  repeat split; try assumption.
  unfold reads. simpl. rewrite String.eqb_refl. reflexivity.
Qed.
End Series.

(** ** [get_data]: errors *)

Section BuilderErrors.
Context `{Host}.
Local Arguments String.eqb : simpl never.
Local Arguments String.append : simpl never.

Lemma pair_not_cached_when_failing : forall (s : Store) t1 t2 e,
    coherent s -> pair_value t1 t2 = inl e ->
    cache_find pair_eqb (t1, t2) (get_data_cache s) = None.
Proof.
  intros s t1 t2 e [_ Hp] L.
  destruct (cache_find _ _ _) as [df|] eqn:F; [|reflexivity].
  apply Hp in F. congruence.
Qed.

(** X5: [get_data] lets the failure of a load through and stores
    nothing for the pair.  When the first series has no file the call
    raises [FileNotFoundError] and changes nothing at all: the second
    series is not even looked at.  When only the second series has no
    file, the call raises after the first series has been loaded, which
    stays cached; no join is computed. *)
Theorem get_data_missing_series : forall es t1 t2,
    let s := store (run es init) in
    (files (fname_of t1) = None ->
     get_data t1 t2 s = (inl FileNotFoundError, s)) /\
    (forall rows1,
        files (fname_of t1) = Some rows1 -> rows1 <> [] ->
        files (fname_of t2) = None ->
        get_data t1 t2 s =
          (inl FileNotFoundError, snd (load_ticker t1 s)) /\
        fst (load_ticker t1 (snd (get_data t1 t2 s))) =
          inr (ticker_frame t1 rows1) /\
        trace (snd (load_ticker t1 (snd (get_data t1 t2 s)))) =
          trace (snd (get_data t1 t2 s)) /\
        get_data_cache (snd (get_data t1 t2 s)) = get_data_cache s /\
        joins (trace (snd (get_data t1 t2 s))) = joins (trace s)).
Proof.
  intros es t1 t2 s.
  assert (Co : coherent s) by apply run_coherent.
  split.
  - intro F1.
    assert (L1 : load_value t1 = inl FileNotFoundError).
    { unfold load_value. rewrite F1. reflexivity. }
    assert (P : pair_value t1 t2 = inl FileNotFoundError).
    { unfold pair_value. rewrite L1. reflexivity. }
    rewrite get_data_run.
    rewrite (pair_not_cached_when_failing s t1 t2 _ Co P).
    rewrite get_data_body_run.
    rewrite (load_ticker_failing s t1 Co F1). reflexivity.
  - intros rows1 F1 N1 F2.
    assert (L1 : load_value t1 = inr (ticker_frame t1 rows1)).
    { apply load_value_data; assumption. }
    assert (L2 : load_value t2 = inl FileNotFoundError).
    { unfold load_value. rewrite F2. reflexivity. }
    assert (P : pair_value t1 t2 = inl FileNotFoundError).
    { unfold pair_value. rewrite L1, L2. reflexivity. }
    destruct (load_ticker_coherent t1 s Co) as (E1 & C1 & G1).
    assert (G : get_data t1 t2 s =
                (inl FileNotFoundError, snd (load_ticker t1 s))).
    { rewrite get_data_run.
      rewrite (pair_not_cached_when_failing s t1 t2 _ Co P).
      rewrite get_data_body_run.
      destruct (load_ticker t1 s) as [[e|df1] s1] eqn:R1; simpl in E1, C1;
        [congruence|].
      simpl. rewrite (load_ticker_failing s1 t2 C1 F2). reflexivity. }
    rewrite G. simpl.
    split; [reflexivity|].
    pose proof (load_ticker_caches s t1 rows1 Co F1) as Cd.
    split.
    { rewrite (load_ticker_run t1 (snd (load_ticker t1 s))), Cd. reflexivity. }
    split.
    { rewrite (load_ticker_run t1 (snd (load_ticker t1 s))), Cd. reflexivity. }
    split; [exact G1|]. apply load_ticker_joins.
Qed.
End BuilderErrors.

Section SameIdentifier.
Context `{Host}.
Local Arguments String.eqb : simpl never.
Local Arguments String.append : simpl never.

Lemma length_append : forall a b : string,
    String.length (a ++ b)%string = String.length a + String.length b.
Proof.
  induction a as [|x a IH]; intro b; [reflexivity|].
  change (String x a ++ b)%string with (String x (a ++ b)%string).
  simpl. rewrite IH. reflexivity.
Qed.

Lemma returns_differs : forall t : string,
    ((t ++ "_returns")%string =? t) = false.
Proof.
  intro t. apply String.eqb_neq. intro E.
  apply (f_equal String.length) in E. rewrite length_append in E.
  simpl in E. lia.
Qed.

Lemma label_same : forall t idx (a b c' d : list Cell),
    label t t
      (mkDF idx [(t, a); ((t ++ "_returns")%string, b);
                 (t, c'); ((t ++ "_returns")%string, d)]) =
    inl ValueError.
Proof.
  intros. unfold label, copy_column, named. simpl.
  rewrite String.eqb_refl, returns_differs. reflexivity.
Qed.

(** X6: asked for the same identifier twice, [get_data] fails.  With a
    file that has data it reads the series, joins the frame with itself,
    and then raises [ValueError] at [data['t1'] = data[t1]], because the
    joined frame carries the column name twice; nothing is stored for
    the pair, so every such call joins again. *)
Theorem get_data_same_identifier : forall es t rows,
    files (fname_of t) = Some rows -> rows <> [] ->
    let s := store (run es init) in
    let s' := snd (get_data t t s) in
    fst (get_data t t s) = inl ValueError /\
    joins (trace s') = S (joins (trace s)) /\
    cache_find pair_eqb (t, t) (get_data_cache s') = None /\
    fst (get_data t t s') = inl ValueError /\
    joins (trace (snd (get_data t t s'))) = S (S (joins (trace s))).
Proof.
  intros es t rows F Ne s s'.
  assert (Co : coherent s) by apply run_coherent.
  assert (L : load_value t = inr (ticker_frame t rows)).
  { apply load_value_data; assumption. }
  assert (P : pair_value t t = inl ValueError).
  { unfold pair_value. rewrite L. unfold assemble.
    rewrite dropna_concat. apply label_same. }
  assert (Step : forall s0 : Store,
             coherent s0 ->
             fst (get_data t t s0) = inl ValueError /\
             joins (trace (snd (get_data t t s0))) = S (joins (trace s0)) /\
             coherent (snd (get_data t t s0))).
  { intros s0 C0.
    destruct (get_data_coherent t t s0 C0) as [E C1].
    split; [rewrite E; exact P|]. split; [|exact C1].
    apply get_data_miss_joins; try assumption.
    - apply (pair_not_cached_when_failing s0 t t _ C0 P).
    - eexists; exact L.
    - eexists; exact L. }
  destruct (Step s Co) as (E1 & J1 & C1). fold s' in J1, C1.
  destruct (Step s' C1) as (E2 & J2 & _).
  split; [exact E1|]. split; [exact J1|].
  split; [apply (pair_not_cached_when_failing s' t t _ C1 P)|].
  split; [exact E2|]. rewrite J2, J1. reflexivity.
Qed.
End SameIdentifier.

(** ** [get_data]: the dataset it builds *)

Section Dataset.
Context `{Host}.

Lemma pair_value_inv : forall t1 t2 df,
    clean t1 t2 = true -> pair_value t1 t2 = inr df ->
    exists rows1 rows2,
      files (fname_of t1) = Some rows1 /\
      files (fname_of t2) = Some rows2 /\
      df = pair_frame t1 t2 rows1 rows2.
Proof.
  intros t1 t2 df Hc P. unfold pair_value, load_value in P.
  destruct (files (fname_of t1)) as [rows1|] eqn:F1; try discriminate.
  destruct (files (fname_of t2)) as [rows2|] eqn:F2; try discriminate.
  rewrite (assemble_clean t1 t2 rows1 rows2 Hc) in P.
  injection P as <-.
  exists rows1, rows2. repeat split.
Qed.

Lemma kept_spec : forall rows1 rows2 i,
    In i (kept rows1 rows2) <->
    i < length (union (map date rows1) (map date rows2)) /\
    quoted rows1 (nth i (union (map date rows1) (map date rows2)) 0%Z) /\
    quoted rows2 (nth i (union (map date rows1) (map date rows2)) 0%Z).
Proof.
  intros rows1 rows2 i. unfold kept, quoted.
  rewrite filter_In, in_seq. split.
  - intros [[_ Hi] P]. simpl in Hi. split; [exact Hi|].
    rewrite !nth_reindex in P by exact Hi.
    rewrite !andb_true_iff in P. tauto.
  - intros (Hi & Q1 & Q2). split; [simpl; lia|].
    rewrite !nth_reindex by exact Hi.
    rewrite !andb_true_iff. tauto.
Qed.

Lemma joined_complete : forall rows1 rows2 own col,
    (forall i, In i (kept rows1 rows2) ->
               is_present
                 (nth i (reindex (map date own)
                           (union (map date rows1) (map date rows2)) col)
                    None) = true) ->
    Forall (fun x => is_present x = true) (joined rows1 rows2 own col).
Proof.
  intros rows1 rows2 own col P. unfold joined.
  apply Forall_forall. intros x X. apply in_map_iff in X.
  destruct X as [i [<- Hi]]. apply P. exact Hi.
Qed.

Lemma pair_frame_complete : forall t1 t2 rows1 rows2,
    complete (pair_frame t1 t2 rows1 rows2).
Proof.
  intros t1 t2 rows1 rows2.
  assert (P : forall i, In i (kept rows1 rows2) ->
                let idx := union (map date rows1) (map date rows2) in
                is_present (nth i (reindex (map date rows1) idx (map c rows1)) None) = true /\
                is_present (nth i (reindex (map date rows1) idx (diff (map c rows1))) None) = true /\
                is_present (nth i (reindex (map date rows2) idx (map c rows2)) None) = true /\
                is_present (nth i (reindex (map date rows2) idx (diff (map c rows2))) None) = true).
  { intros i Hi. apply kept_spec in Hi. destruct Hi as (Hl & [Q1 Q1'] & [Q2 Q2']).
    simpl. rewrite !nth_reindex by exact Hl. tauto. }
  unfold complete, pair_frame. cbn [columns].
  repeat (constructor; [cbn [snd]; apply joined_complete; intros i Hi;
                        apply (P i Hi)|]).
  constructor.
Qed.

Lemma pair_frame_rectangular : forall t1 t2 rows1 rows2,
    rectangular (pair_frame t1 t2 rows1 rows2).
Proof.
  intros. unfold rectangular, pair_frame, nrows, joined_index, joined.
  cbn [columns index].
  repeat (constructor; [cbn [snd]; rewrite !length_map; reflexivity|]).
  constructor.
Qed.

(** X7: for column names that do not collide, every dataset [get_data]
    returns has exactly the eight columns [t1], [t1_returns], [t2],
    [t2_returns] (under the identifiers' names) and their four copies
    ['t1'], ['t2'], ['t1_returns'], ['t2_returns'], every column is as
    long as the index, and no cell is NaN. *)
Theorem dataset_is_complete : forall es t1 t2 df,
    clean t1 t2 = true ->
    fst (get_data t1 t2 (store (run es init))) = inr df ->
    map fst (columns df) =
      [t1; (t1 ++ "_returns")%string; t2; (t2 ++ "_returns")%string;
       "t1"; "t2"; "t1_returns"; "t2_returns"] /\
    rectangular df /\ complete df /\
    column "t1" df = column t1 df /\
    column "t2" df = column t2 df /\
    column "t1_returns" df = column (t1 ++ "_returns")%string df /\
    column "t2_returns" df = column (t2 ++ "_returns")%string df.
Proof.
  intros es t1 t2 df Hc G.
  destruct (get_data_coherent t1 t2 _ (run_coherent es)) as [E _].
  rewrite E in G.
  destruct (pair_value_inv t1 t2 df Hc G) as (rows1 & rows2 & _ & _ & ->).
  split; [reflexivity|].
  split; [apply pair_frame_rectangular|].
  split; [apply pair_frame_complete|].
  destruct (column_pair_frame t1 t2 rows1 rows2 Hc) as (P1 & P2 & P3 & P4).
  rewrite P1, P2, P3, P4.
  unfold clean, distinct, existsb in Hc.
  rewrite ?andb_true_iff, ?negb_true_iff, ?orb_false_iff in Hc.
  destruct Hc as ((A1 & A2 & A3 & _) & (B2 & B3 & _) & (C3 & _) & _).
  unfold column, pair_frame, named. cbn [columns filter fst snd].
  rewrite A1, A2, A3, B2, B3, C3, !String.eqb_refl.
  repeat split.
Qed.
End Dataset.

Section DatasetDates.
Context `{Host}.

Lemma in_union : forall xs ys d, In d (union xs ys) <-> In d xs \/ In d ys.
Proof.
  induction xs as [|x xs IHx]; intros ys d.
  - rewrite union_nil_l. simpl. tauto.
  - induction ys as [|y ys IHy].
    + rewrite union_nil_r. simpl. tauto.
    + rewrite union_cons.
      destruct (x <? y)%Z eqn:Lxy; [|destruct (y <? x)%Z eqn:Lyx].
      * simpl. rewrite IHx. simpl. tauto.
      * simpl. rewrite IHy. simpl. tauto.
      * apply Z.ltb_ge in Lxy. apply Z.ltb_ge in Lyx.
        assert (x = y) by lia. subst y.
        simpl. rewrite IHx. tauto.
Qed.

Lemma cell_at_present : forall d idx (col : list Cell),
    is_present (cell_at d idx col) = true -> In d idx.
Proof.
  intros d idx col P.
  destruct (in_dec Z.eq_dec d idx) as [Hin|Hout]; [exact Hin|].
  rewrite (cell_at_absent d idx col Hout) in P. discriminate.
Qed.

Lemma joined_index_spec : forall rows1 rows2 d,
    In d (joined_index rows1 rows2) <-> quoted rows1 d /\ quoted rows2 d.
Proof.
  intros rows1 rows2 d. unfold joined_index. rewrite in_map_iff. split.
  - intros [i [<- Hi]]. apply kept_spec in Hi. tauto.
  - intros [Q1 Q2].
    assert (Hin : In d (union (map date rows1) (map date rows2))).
    { apply in_union. left. destruct Q1 as [Q1 _].
      apply (cell_at_present _ _ _ Q1). }
    destruct (In_nth _ _ 0%Z Hin) as [i [Hi E]].
    exists i. split; [exact E|]. apply kept_spec. rewrite E. tauto.
Qed.

Lemma first_not_quoted : forall (r : CsvRow) rest,
    ~ quoted (r :: rest) (date r).
Proof.
  intros r rest [_ Q]. simpl in Q. rewrite Z.eqb_refl in Q. discriminate.
Qed.

(** X8: the join is an inner join on dates that have a return.  For two
    well-formed series under names that do not collide, a date is in the
    dataset [get_data] returns exactly when both series have a closing
    value and a return at that date; so every dataset date is a date of
    both files, and the first date of either file is never in it. *)
Theorem dataset_dates : forall es t1 t2 rows1 rows2,
    clean t1 t2 = true ->
    files (fname_of t1) = Some rows1 -> rows1 <> [] ->
    files (fname_of t2) = Some rows2 -> rows2 <> [] ->
    well_formed rows1 = true -> well_formed rows2 = true ->
    exists df,
      fst (get_data t1 t2 (store (run es init))) = inr df /\
      (forall d, In d (index df) <-> quoted rows1 d /\ quoted rows2 d) /\
      (forall d, In d (index df) ->
                 In d (map date rows1) /\ In d (map date rows2)) /\
      ~ In (date (hd (mkRow 0%Z None None None None None None) rows1))
           (index df) /\
      ~ In (date (hd (mkRow 0%Z None None None None None None) rows2))
           (index df).
Proof.
  intros es t1 t2 rows1 rows2 Hc F1 N1 F2 N2 _ _.
  exists (pair_frame t1 t2 rows1 rows2).
  split.
  { destruct (get_data_coherent t1 t2 _ (run_coherent es)) as [E _].
    rewrite E. apply pair_value_clean; assumption. }
  unfold pair_frame. cbn [index].
  split; [intro d; apply joined_index_spec|].
  split.
  { intros d Hd. apply joined_index_spec in Hd.
    destruct Hd as [[Q1 _] [Q2 _]].
    split; [apply (cell_at_present _ _ _ Q1) | apply (cell_at_present _ _ _ Q2)]. }
  destruct rows1 as [|r1 rest1]; [contradiction|].
  destruct rows2 as [|r2 rest2]; [contradiction|].
  cbn [hd]. split; intro Hd; apply joined_index_spec in Hd.
  - apply (first_not_quoted r1 rest1). tauto.
  - apply (first_not_quoted r2 rest2). tauto.
Qed.

Lemma increasing_sorted : forall ds,
    increasing ds = true <-> StronglySorted Z.lt ds.
Proof.
  induction ds as [|d ds IH]; [split; [constructor | reflexivity]|].
  destruct ds as [|d' ds].
  - split; [intros _; repeat constructor | reflexivity].
  - change (increasing (d :: d' :: ds))
      with ((d <? d')%Z && increasing (d' :: ds)).
    rewrite andb_true_iff, Z.ltb_lt, IH. split.
    + intros [L Hs]. constructor; [exact Hs|].
      constructor; [exact L|].
      inversion Hs as [|? ? _ Fa]; subst.
      apply Forall_forall. intros x X.
      rewrite Forall_forall in Fa. specialize (Fa x X). lia.
    + intro Hs. inversion Hs as [|? ? Hs' Fa]; subst.
      split; [|exact Hs']. inversion Fa; assumption.
Qed.

Lemma union_sorted : forall xs ys,
    StronglySorted Z.lt xs -> StronglySorted Z.lt ys ->
    StronglySorted Z.lt (union xs ys).
Proof.
  induction xs as [|x xs IHx]; intros ys Sx Sy.
  - rewrite union_nil_l. exact Sy.
  - induction ys as [|y ys IHy].
    + rewrite union_nil_r. exact Sx.
    + inversion Sx as [|? ? Sx' Fx]; subst.
      inversion Sy as [|? ? Sy' Fy]; subst.
      rewrite Forall_forall in Fx, Fy.
      rewrite union_cons.
      destruct (x <? y)%Z eqn:Lxy; [|destruct (y <? x)%Z eqn:Lyx].
      * apply Z.ltb_lt in Lxy. constructor; [apply IHx; assumption|].
        apply Forall_forall. intros z Hz. apply in_union in Hz.
        destruct Hz as [Hz|[<-|Hz]]; [apply Fx; exact Hz | exact Lxy |].
        specialize (Fy z Hz). lia.
      * apply Z.ltb_lt in Lyx. constructor; [apply IHy; assumption|].
        apply Forall_forall. intros z Hz. apply in_union in Hz.
        destruct Hz as [[<-|Hz]|Hz]; [exact Lyx | | apply Fy; exact Hz].
        specialize (Fx z Hz). lia.
      * apply Z.ltb_ge in Lxy. apply Z.ltb_ge in Lyx.
        assert (x = y) by lia. subst y.
        constructor; [apply IHx; assumption|].
        apply Forall_forall. intros z Hz. apply in_union in Hz.
        destruct Hz as [Hz|Hz]; [apply Fx | apply Fy]; exact Hz.
Qed.

Lemma filter_shift : forall (P : nat -> bool) n,
    filter P (seq 1 n) = map S (filter (fun i => P (S i)) (seq 0 n)).
Proof.
  intros P n. rewrite <- seq_shift.
  induction (seq 0 n) as [|i js IH]; [reflexivity|]. simpl.
  destruct (P (S i)); simpl; rewrite IH; reflexivity.
Qed.

Lemma positions_sorted : forall (ds : list Z) (P : nat -> bool),
    StronglySorted Z.lt ds ->
    StronglySorted Z.lt
      (map (fun i => nth i ds 0%Z) (filter P (seq 0 (length ds)))).
Proof.
  induction ds as [|d ds IH]; intros P Hs; [constructor|].
  inversion Hs as [|? ? Hs' Fd]; subst.
  change (seq 0 (length (d :: ds))) with (0 :: seq 1 (length ds)).
  assert (T : map (fun i => nth i (d :: ds) 0%Z) (filter P (seq 1 (length ds)))
              = map (fun i => nth i ds 0%Z)
                  (filter (fun i => P (S i)) (seq 0 (length ds)))).
  { rewrite filter_shift, map_map. reflexivity. }
  cbn [filter]. destruct (P 0).
  - rewrite map_cons, T. cbn [nth]. constructor; [apply IH; exact Hs'|].
    apply Forall_forall. intros z Hz. apply in_map_iff in Hz.
    destruct Hz as [i [<- Hi]]. apply filter_In in Hi. destruct Hi as [Hi _].
    apply in_seq in Hi. rewrite Forall_forall in Fd. apply Fd.
    apply nth_In. lia.
  - rewrite T. apply IH. exact Hs'.
Qed.

(** X9: for two well-formed series under names that do not collide, the
    dates of the dataset [get_data] returns are strictly increasing; in
    particular no date occurs twice. *)
Theorem dataset_dates_increasing : forall es t1 t2 rows1 rows2,
    clean t1 t2 = true ->
    files (fname_of t1) = Some rows1 -> rows1 <> [] ->
    files (fname_of t2) = Some rows2 -> rows2 <> [] ->
    well_formed rows1 = true -> well_formed rows2 = true ->
    exists df,
      fst (get_data t1 t2 (store (run es init))) = inr df /\
      increasing (index df) = true /\ NoDup (index df).
Proof.
  intros es t1 t2 rows1 rows2 Hc F1 N1 F2 N2 W1 W2.
  exists (pair_frame t1 t2 rows1 rows2).
  split.
  { destruct (get_data_coherent t1 t2 _ (run_coherent es)) as [E _].
    rewrite E. apply pair_value_clean; assumption. }
  assert (Hs : StronglySorted Z.lt (index (pair_frame t1 t2 rows1 rows2))).
  { unfold pair_frame, joined_index, kept. cbn [index].
    apply positions_sorted. apply union_sorted; apply increasing_sorted;
      assumption. }
  split; [apply increasing_sorted; exact Hs|].
  clear - Hs. induction Hs as [|d ds Hs IH Fd]; constructor; [|exact IH].
  intro X. rewrite Forall_forall in Fd. specialize (Fd d X). lia.
Qed.

(** X10: the two caches are transparent.  In every state the process
    reaches, [load_ticker] and [get_data] return for any arguments
    exactly what an uncached computation from the files gives, value or
    exception; so two calls with the same arguments agree whatever
    happened in between. *)
Theorem caches_are_transparent : forall es es' t1 t2,
    fst (load_ticker t1 (store (run es init))) = load_value t1 /\
    fst (get_data t1 t2 (store (run es init))) = pair_value t1 t2 /\
    fst (load_ticker t1 (store (run es init))) =
      fst (load_ticker t1 (store (run es' init))) /\
    fst (get_data t1 t2 (store (run es init))) =
      fst (get_data t1 t2 (store (run es' init))).
Proof.
  intros es es' t1 t2.
  destruct (load_ticker_coherent t1 _ (run_coherent es)) as (L & _ & _).
  destruct (load_ticker_coherent t1 _ (run_coherent es')) as (L' & _ & _).
  destruct (get_data_coherent t1 t2 _ (run_coherent es)) as [G _].
  destruct (get_data_coherent t1 t2 _ (run_coherent es')) as [G' _].
  repeat split; congruence.
Qed.
End DatasetDates.

(** ** The caches stay within [maxsize] *)

Section CacheBound.
Context {K A : Type} (eqb : K -> K -> bool).
Hypothesis eqb_eq : forall a b, eqb a b = true <-> a = b.

Lemma length_removelast : forall (xs : list (K * A)),
    length (removelast xs) = pred (length xs).
Proof.
  induction xs as [|x xs IH]; [reflexivity|].
  destruct xs as [|y xs]; [reflexivity|].
  change (removelast (x :: y :: xs)) with (x :: removelast (y :: xs)).
  cbn [length]. rewrite IH. reflexivity.
Qed.

Lemma keys_removelast : forall (xs : list (K * A)),
    map fst (removelast xs) = removelast (map fst xs).
Proof.
  induction xs as [|x xs IH]; [reflexivity|].
  destruct xs as [|y xs]; [reflexivity|].
  change (removelast (x :: y :: xs)) with (x :: removelast (y :: xs)).
  cbn [map]. rewrite IH. reflexivity.
Qed.

Lemma in_removelast : forall (ks : list K) k,
    In k (removelast ks) -> In k ks.
Proof.
  induction ks as [|x ks IH]; intros k Hk; [contradiction|].
  destruct ks as [|y ks]; [contradiction|].
  change (removelast (x :: y :: ks)) with (x :: removelast (y :: ks)) in Hk.
  destruct Hk as [<-|Hk]; [left; reflexivity | right; apply IH; exact Hk].
Qed.

Lemma nodup_removelast : forall ks : list K,
    NoDup ks -> NoDup (removelast ks).
Proof.
  induction ks as [|x ks IH]; intro N; [constructor|].
  destruct ks as [|y ks]; [constructor|].
  change (removelast (x :: y :: ks)) with (x :: removelast (y :: ks)).
  inversion N as [|? ? Hx N']; subst.
  constructor; [|apply IH; exact N'].
  intro X. apply Hx. apply in_removelast. exact X.
Qed.

Lemma store_bounded : forall n (k : K) (a : A) cache,
    0 < n -> cache_find eqb k cache = None ->
    length cache <= n -> NoDup (map fst cache) ->
    length (cache_store n k a cache) <= n /\
    NoDup (map fst (cache_store n k a cache)).
Proof.
  intros n k a cache Hn Hmiss Hlen N. unfold cache_store.
  pose proof (cache_find_none_keys eqb eqb_eq k cache Hmiss) as Hk.
  destruct (length cache <? n)%nat eqn:L.
  - apply Nat.ltb_lt in L. split; [simpl; lia|].
    cbn [map fst]. constructor; assumption.
  - apply Nat.ltb_ge in L. split.
    + simpl. rewrite length_removelast. lia.
    + cbn [map fst]. rewrite keys_removelast. constructor.
      * intro X. apply Hk. apply in_removelast. exact X.
      * apply nodup_removelast. exact N.
Qed.

Lemma length_remove_found : forall (k : K) (a : A) cache,
    cache_find eqb k cache = Some a ->
    S (length (cache_remove eqb k cache)) <= length cache.
Proof.
  intros k a cache. unfold cache_find, cache_remove.
  induction cache as [|e cache IH]; simpl; [discriminate|].
  destruct (eqb k (fst e)) eqn:E; simpl.
  - intros _. pose proof (filter_length_le (fun e0 => negb (eqb k (fst e0))) cache).
    lia.
  - intro F. specialize (IH F). lia.
Qed.

Lemma touch_bounded : forall n (k : K) (a : A) cache,
    cache_find eqb k cache = Some a ->
    length cache <= n -> NoDup (map fst cache) ->
    length (cache_touch eqb k a cache) <= n /\
    NoDup (map fst (cache_touch eqb k a cache)).
Proof.
  intros n k a cache F Hlen N. split.
  - unfold cache_touch. simpl.
    pose proof (length_remove_found k a cache F). lia.
  - apply (keys_touch_nodup eqb eqb_eq). exact N.
Qed.
End CacheBound.

Section Bounded.
Context `{Host}.

Lemma maxsize_positive : 0 < maxsize.
Proof. unfold maxsize. lia. Qed.

Lemma load_ticker_bounded : forall t (s : Store),
    bounded s -> bounded (snd (load_ticker t s)).
Proof.
  intros t s (L1 & N1 & L2 & N2). rewrite load_ticker_run.
  destruct (cache_find String.eqb t (load_ticker_cache s)) as [df|] eqn:F.
  - destruct (touch_bounded String.eqb String.eqb_eq maxsize t df _ F L1 N1)
      as [L N].
    repeat split; assumption.
  - destruct (files (fname_of t)) as [rows|];
      [|repeat split; assumption].
    destruct (store_bounded String.eqb String.eqb_eq maxsize t
                (ticker_frame t rows) _ maxsize_positive F L1 N1)
      as [L N].
    repeat split; assumption.
Qed.

Lemma load_ticker_data_cache : forall t (s : Store),
    get_data_cache (snd (load_ticker t s)) = get_data_cache s.
Proof.
  intros t s. rewrite load_ticker_run.
  destruct (cache_find String.eqb t (load_ticker_cache s)); [reflexivity|].
  destruct (files (fname_of t)) as [rows|]; reflexivity.
Qed.

Lemma get_data_bounded : forall t1 t2 (s : Store),
    bounded s -> bounded (snd (get_data t1 t2 s)).
Proof.
  intros t1 t2 s B. rewrite get_data_run.
  destruct (cache_find pair_eqb (t1, t2) (get_data_cache s)) as [df|] eqn:F.
  - destruct B as (L1 & N1 & L2 & N2).
    destruct (touch_bounded pair_eqb pair_eqb_eq maxsize (t1, t2) df _ F L2 N2)
      as [L N].
    repeat split; assumption.
  - assert (Bb : bounded (snd (get_data_body (t1, t2) s)) /\
                 get_data_cache (snd (get_data_body (t1, t2) s)) =
                 get_data_cache s).
    { rewrite get_data_body_run.
      pose proof (load_ticker_bounded t1 s B) as B1.
      pose proof (load_ticker_data_cache t1 s) as D1.
      destruct (load_ticker t1 s) as [[e|d1] s1]; simpl in B1, D1;
        [split; assumption|].
      pose proof (load_ticker_bounded t2 s1 B1) as B2.
      pose proof (load_ticker_data_cache t2 s1) as D2.
      destruct (load_ticker t2 s1) as [[e|d2] s2]; simpl in B2, D2; simpl;
        (split; [exact B2 | congruence]). }
    destruct Bb as [(L1 & N1 & L2 & N2) D].
    destruct (get_data_body (t1, t2) s) as [[e|df] s']; simpl in *;
      [repeat split; assumption|].
    rewrite <- D in F.
    destruct (store_bounded pair_eqb pair_eqb_eq maxsize (t1, t2) df _
                maxsize_positive F L2 N2) as [L N].
    repeat split; assumption.
Qed.

(** X11: whatever events arrive, with identifiers of the universe or
    not, neither cache ever holds more than 128 entries, and no key is
    stored twice. *)
Theorem caches_stay_bounded : forall es,
    let s := store (run es init) in
    length (load_ticker_cache s) <= 128 /\
    length (get_data_cache s) <= 128 /\
    NoDup (map fst (load_ticker_cache s)) /\
    NoDup (map fst (get_data_cache s)).
Proof.
  intro es. cbv zeta.
  assert (B : bounded (store (run es init))).
  { induction es as [|e es IH] using rev_ind.
    - unfold bounded, maxsize. simpl. repeat split; try lia; constructor.
    - rewrite run_app, step_store. apply get_data_bounded. exact IH. }
  destruct B as (L1 & N1 & L2 & N2). unfold maxsize in L1, L2.
  repeat split; assumption.
Qed.
End Bounded.

(** ** [update] and the identifier callbacks *)

Section UpdateFacts.
Context `{Host}.

(** X12: an identifier change whose [get_data] call raises lets the
    exception through and publishes nothing: both tables, the report and
    the three titles stay those of the old pair.  The chooser itself is
    not rolled back: the changed slot holds the new identifier and the
    other slot's options already exclude it. *)
Theorem failed_change_keeps_publication : forall (s : State) slot X e,
    fst (get_data (ticker1_value (widgets (after_change slot X s)))
           (ticker2_value (widgets (after_change slot X s))) (store s)) =
      inl e ->
    let s' := step (IdentifierChanged slot X) s in
    fst (dispatch (IdentifierChanged slot X) s) = inl e /\
    published s' = published s /\
    own_value_is slot X s' /\
    other_options slot s' = nix X DEFAULT_TICKERS.
Proof.
  intros s slot X e G s'. subst s'. unfold step.
  rewrite dispatch_identifier, update_run.
  cbv zeta.
  replace (store (after_change slot X s)) with (store s)
    by (destruct slot; reflexivity).
  destruct (get_data _ _ (store s)) as [[e0|df] st]; simpl in G;
    [|discriminate].
  injection G as ->. simpl.
  destruct slot; repeat split.
Qed.

(** X13: [update] is idempotent.  Run again right after a completed
    run, it completes, finds the dataset in the cache (no file is read,
    no join computed) and leaves every widget as the first run set it. *)
Theorem update_is_idempotent : forall (s : State),
    fst (update s) = inr tt ->
    let s1 := snd (update s) in
    let s2 := snd (update s1) in
    fst (update s1) = inr tt /\
    widgets s2 = widgets s1 /\
    trace (store s2) = trace (store s1) /\
    load_ticker_cache (store s2) = load_ticker_cache (store s1).
Proof.
  intros s Hok s1 s2. subst s2 s1.
  rewrite update_run in Hok. rewrite (update_run s). cbv zeta in *.
  destruct (get_data (ticker1_value (widgets s)) (ticker2_value (widgets s))
              (store s)) as [[e|df] st] eqn:G; [discriminate|].
  destruct (select df plot_columns) as [e|data] eqn:P; [discriminate|].
  destruct (select df (stat_columns _ _)) as [e|view] eqn:S; [discriminate|].
  cbn [snd]. rewrite update_run. cbv zeta.
  cbn [widgets store ticker1_value ticker2_value set_ts_title_text
       set_corr_title_text set_stats_text set_source_static_data
       set_source_data].
  apply get_data_cached in G.
  destruct (get_data_hit _ _ _ _ G) as (R & T & L & _).
  destruct (get_data (ticker1_value (widgets s)) (ticker2_value (widgets s)) st)
    as [r st'].
  simpl in R, T, L. subst r. rewrite P, S. simpl.
  repeat split; assumption.
Qed.

(** X14: what is published depends on the identifier pair only.  Two
    completed identifier changes, reached through any two histories,
    that leave the choosers on the same pair publish the same two
    tables, the same report and the same titles. *)
Theorem publication_depends_on_pair : forall es1 es2 slot1 X1 slot2 X2,
    let e1 := IdentifierChanged slot1 X1 in
    let e2 := IdentifierChanged slot2 X2 in
    let s1 := step e1 (run es1 init) in
    let s2 := step e2 (run es2 init) in
    fst (dispatch e1 (run es1 init)) = inr tt ->
    fst (dispatch e2 (run es2 init)) = inr tt ->
    ticker1_value (widgets s1) = ticker1_value (widgets s2) ->
    ticker2_value (widgets s1) = ticker2_value (widgets s2) ->
    published s1 = published s2.
Proof.
  intros es1 es2 slot1 X1 slot2 X2 e1 e2 s1 s2 Ok1 Ok2 V1 V2.
  subst s1 s2 e1 e2. unfold step in *.
  rewrite !dispatch_identifier in *.
  destruct (update_choosers (after_change slot1 X1 (run es1 init)))
    as (A1 & _ & A3 & _).
  destruct (update_choosers (after_change slot2 X2 (run es2 init)))
    as (B1 & _ & B3 & _).
  rewrite A1, B1 in V1. rewrite A3, B3 in V2.
  destruct (update_completed _ Ok1)
    as (df1 & view1 & G1 & P1 & St1 & S1 & T1 & C1 & Ta1 & Tb1).
  destruct (update_completed _ Ok2)
    as (df2 & view2 & G2 & P2 & St2 & S2 & T2 & C2 & Ta2 & Tb2).
  assert (E1 : pair_value (ticker1_value (widgets (after_change slot1 X1 (run es1 init))))
                 (ticker2_value (widgets (after_change slot1 X1 (run es1 init))))
               = inr df1).
  { destruct (get_data_coherent
                (ticker1_value (widgets (after_change slot1 X1 (run es1 init))))
                (ticker2_value (widgets (after_change slot1 X1 (run es1 init))))
                (store (after_change slot1 X1 (run es1 init)))) as [E _].
    { destruct slot1; apply run_coherent. }
    rewrite G1 in E. symmetry. exact E. }
  assert (E2 : pair_value (ticker1_value (widgets (after_change slot2 X2 (run es2 init))))
                 (ticker2_value (widgets (after_change slot2 X2 (run es2 init))))
               = inr df2).
  { destruct (get_data_coherent
                (ticker1_value (widgets (after_change slot2 X2 (run es2 init))))
                (ticker2_value (widgets (after_change slot2 X2 (run es2 init))))
                (store (after_change slot2 X2 (run es2 init)))) as [E _].
    { destruct slot2; apply run_coherent. }
    rewrite G2 in E. symmetry. exact E. }
  rewrite V1, V2 in E1. rewrite E1 in E2. injection E2 as <-.
  rewrite V1, V2 in S1, C1. rewrite S1 in S2. injection S2 as <-.
  rewrite P1 in P2. injection P2 as P2.
  unfold published.
  rewrite St1, St2, T1, T2, C1, C2, Ta1, Ta2, Tb1, Tb2, P2, V1, V2.
  reflexivity.
Qed.
End UpdateFacts.

(** ** Selections of a built dataset *)

Section SelectionFacts.
Context `{Host}.
Local Arguments String.eqb : simpl never.
Local Arguments String.append : simpl never.





Lemma nth_seq_all : forall (A : Type) (xs : list A) (d : A),
    map (fun i => nth i xs d) (seq 0 (length xs)) = xs.
Proof.
  intros A xs d. induction xs as [|x xs IH]; [reflexivity|].
  cbn [length seq map nth]. f_equal.
  rewrite <- seq_shift, map_map. exact IH.
Qed.

Lemma take_all : forall df : DataFrame,
    rectangular df -> take df (seq 0 (nrows df)) = df.
Proof.
  intros [idx cols] R. unfold rectangular, take, nrows in *.
  cbn [index columns] in *. f_equal.
  - apply nth_seq_all.
  - induction cols as [|nc cols IH]; [reflexivity|].
    inversion R as [|? ? Hl R']; subst. cbn [map]. f_equal.
    + rewrite <- Hl, nth_seq_all. destruct nc; reflexivity.
    + apply IH. exact R'.
Qed.

(** X16: selecting every row, in order, is the same as selecting
    nothing.  For the dataset of the current pair (names that do not
    collide), the selection [0, 1, ..., n-1] over its [n] rows restricts
    to the dataset itself, and the selection handler publishes the same
    report as for the empty selection. *)
Theorem selecting_every_row : forall es df,
    let s := run es init in
    let t1 := ticker1_value (widgets s) in
    let t2 := ticker2_value (widgets s) in
    clean t1 t2 = true ->
    fst (get_data t1 t2 (store s)) = inr df ->
    restrict df (seq 0 (nrows df)) = inr df /\
    fst (dispatch (SelectionChanged (seq 0 (nrows df))) s) =
      fst (dispatch (SelectionChanged []) s) /\
    stats_text (widgets (step (SelectionChanged (seq 0 (nrows df))) s)) =
      stats_text (widgets (step (SelectionChanged []) s)).
Proof.
  intros es df s t1 t2 Hc G.
  assert (R : restrict df (seq 0 (nrows df)) = inr df).
  { destruct (get_data_coherent t1 t2 _ (run_coherent es)) as [E _].
    fold s in E. rewrite E in G.
    destruct (pair_value_inv t1 t2 df Hc G)
      as (rows1 & rows2 & _ & _ & ->).
    pose proof (pair_frame_rectangular t1 t2 rows1 rows2) as Rc.
    unfold restrict.
    destruct (seq 0 (nrows (pair_frame t1 t2 rows1 rows2))) as [|i js] eqn:Sq;
      [reflexivity|].
    rewrite <- Sq. rewrite iloc_in_range.
    - rewrite take_all by exact Rc. reflexivity.
    - intros j Hj. apply in_seq in Hj. lia. }
  split; [exact R|].
  unfold step. rewrite !dispatch_selection, !selection_change_run.
  cbv zeta.
  cbn [widgets store ticker1_value ticker2_value source_selected_indices
       set_source_selected_indices].
  fold t1 t2.
  destruct (get_data t1 t2 (store s)) as [[e|d] st]; simpl in G;
    [discriminate|].
  injection G as ->. rewrite R. cbn [restrict].
  rewrite !update_stats_run. cbn [widgets store].
  destruct (select df (stat_columns t1 t2)); split; reflexivity.
Qed.
End SelectionFacts.

Section Shape.
Context `{Host}.

(** X17: after a completed identifier change on a pair whose names do
    not collide, the correlation title reads
    ['<t1> returns vs. <t2> returns'], the two series titles are the two
    identifiers, and the published table has exactly the columns ['t1'],
    ['t2'], ['t1_returns'], ['t2_returns'] over the dates of the
    dataset, every column as long as the index and without NaN. *)
Theorem completed_change_shape : forall es slot X,
    let s := run es init in
    let e := IdentifierChanged slot X in
    let s' := step e s in
    let t1 := ticker1_value (widgets s') in
    let t2 := ticker2_value (widgets s') in
    fst (dispatch e s) = inr tt ->
    clean t1 t2 = true ->
    corr_title_text (widgets s') =
      (t1 ++ " returns vs. " ++ t2 ++ " returns")%string /\
    ts1_title_text (widgets s') = t1 /\
    ts2_title_text (widgets s') = t2 /\
    map fst (columns (source_data (widgets s'))) = plot_columns /\
    rectangular (source_data (widgets s')) /\
    complete (source_data (widgets s')) /\
    exists df,
      pair_value t1 t2 = inr df /\
      index (source_data (widgets s')) = index df.
Proof.
  intros es slot X s e s' t1 t2 Ok Hc. subst t1 t2 s' e. unfold step in *.
  rewrite dispatch_identifier in *.
  destruct (update_choosers (after_change slot X s)) as (E1 & _ & E3 & _).
  rewrite E1, E3 in *.
  destruct (update_completed _ Ok)
    as (df & view & G & P & _ & _ & _ & C & Ta & Tb).
  split; [exact C|]. split; [exact Ta|]. split; [exact Tb|].
  assert (E : pair_value (ticker1_value (widgets (after_change slot X s)))
                (ticker2_value (widgets (after_change slot X s))) = inr df).
  { destruct (get_data_coherent
                (ticker1_value (widgets (after_change slot X s)))
                (ticker2_value (widgets (after_change slot X s)))
                (store (after_change slot X s))) as [E _].
    { destruct slot; apply run_coherent. }
    rewrite G in E. symmetry. exact E. }
  destruct (pair_value_inv _ _ df Hc E) as (rows1 & rows2 & _ & _ & D).
  subst df. assert (P' := P). unfold pair_frame in P.
  rewrite (select_plot_clean _ _ _ _ _ _ _ Hc) in P.
  injection P as P. rewrite <- P. clear P'.
  pose proof (pair_frame_complete
                (ticker1_value (widgets (after_change slot X s)))
                (ticker2_value (widgets (after_change slot X s)))
                rows1 rows2) as Cm.
  pose proof (pair_frame_rectangular
                (ticker1_value (widgets (after_change slot X s)))
                (ticker2_value (widgets (after_change slot X s)))
                rows1 rows2) as Rc.
  unfold complete, rectangular, pair_frame, nrows in *.
  cbn [columns index] in *.
  repeat match goal with
         | H0 : Forall _ (_ :: _) |- _ => inversion H0; clear H0; subst
         end.
  cbn [snd] in *.
  split; [reflexivity|].
  split; [repeat constructor; assumption|].
  split; [repeat constructor; assumption|].
  eexists. split; [exact E | reflexivity].
Qed.
End Shape.

(** ** The startup query *)

Section StartupFacts.
Variable query : string -> Json -> StartupErr + Json.

Lemma print_keys_keyed : forall prefix ns keys,
    keyed ns keys ->
    print_keys prefix ns = (map (fun k => (prefix ++ k)%string) keys, Done).
Proof.
  intros prefix ns keys K. induction K as [|n k ns keys Hk K IH];
    [reflexivity|].
  cbn [print_keys]. rewrite Hk. cbn [str_plus]. rewrite IH. reflexivity.
Qed.

Lemma print_buckets_keyed : forall result a b ns keys name prefix,
    subscript result "aggregations" = inr a ->
    subscript a name = inr b ->
    subscript b "buckets" = inr (JList ns) ->
    keyed ns keys ->
    print_buckets result name prefix =
    (map (fun k => (prefix ++ k)%string) keys, Done).
Proof.
  intros result a b ns keys name prefix Ha Hb Hn K. unfold print_buckets.
  rewrite Ha, Hb, Hn. cbn [iterate]. apply print_keys_keyed. exact K.
Qed.

(** X18: on an answer that holds the three bucket lists with string
    keys, [get_variables] ends normally and prints one line per bucket,
    none left out whatever their number: the network keys first, then
    the pop keys, then the host keys, each list in the order of the
    answer and each line under its prefix. *)
Theorem get_variables_prints_all :
  forall url result a nl pl hl nets pops hosts nkeys pkeys hkeys,
    query url aggs = inr result ->
    subscript result "aggregations" = inr a ->
    subscript a "network_list" = inr nl ->
    subscript nl "buckets" = inr (JList nets) -> keyed nets nkeys ->
    subscript a "pop_list" = inr pl ->
    subscript pl "buckets" = inr (JList pops) -> keyed pops pkeys ->
    subscript a "host_list" = inr hl ->
    subscript hl "buckets" = inr (JList hosts) -> keyed hosts hkeys ->
    get_variables query url =
      (map (fun k => ("network: " ++ k)%string) nkeys ++
       map (fun k => ("pop: " ++ k)%string) pkeys ++
       map (fun k => ("host: " ++ k)%string) hkeys, Done) /\
    length (fst (get_variables query url)) =
      length nets + length pops + length hosts.
Proof.
  intros url result a nl pl hl nets pops hosts nkeys pkeys hkeys
         Q Ha Hn Hnb Kn Hp Hpb Kp Hh Hhb Kh.
  assert (G : get_variables query url =
              (map (fun k => ("network: " ++ k)%string) nkeys ++
               map (fun k => ("pop: " ++ k)%string) pkeys ++
               map (fun k => ("host: " ++ k)%string) hkeys, Done)).
  { unfold get_variables. rewrite Q.
    rewrite (print_buckets_keyed result a nl nets nkeys _ _ Ha Hn Hnb Kn).
    rewrite (print_buckets_keyed result a pl pops pkeys _ _ Ha Hp Hpb Kp).
    rewrite (print_buckets_keyed result a hl hosts hkeys _ _ Ha Hh Hhb Kh).
    reflexivity. }
  split; [exact G|]. rewrite G. cbn [fst].
  rewrite !length_app, !length_map.
  rewrite (Forall2_length Kn), (Forall2_length Kp), (Forall2_length Kh).
  lia.
Qed.

Lemma print_keys_prefixed : forall prefix ns,
    exists keys,
      fst (print_keys prefix ns) = map (fun k => (prefix ++ k)%string) keys /\
      length keys <= length ns.
Proof.
  intros prefix ns. induction ns as [|n ns IH].
  - exists []. split; [reflexivity | simpl; lia].
  - cbn [print_keys].
    destruct (subscript n "key") as [e|k]; [exists []; split; [reflexivity | simpl; lia]|].
    destruct k as [| | |k| |];
      try (exists []; split; [reflexivity | simpl; lia]).
    cbn [str_plus]. destruct IH as [keys [E L]].
    destruct (print_keys prefix ns) as [lines out]. cbn [fst] in *.
    exists (k :: keys). split; [cbn [map]; rewrite E; reflexivity | simpl; lia].
Qed.

Lemma print_buckets_prefixed : forall result name prefix,
    exists keys,
      fst (print_buckets result name prefix) =
      map (fun k => (prefix ++ k)%string) keys.
Proof.
  intros result name prefix. unfold print_buckets.
  destruct (subscript result "aggregations") as [e|a]; [exists []; reflexivity|].
  destruct (subscript a name) as [e|b]; [exists []; reflexivity|].
  destruct (subscript b "buckets") as [e|bs]; [exists []; reflexivity|].
  destruct (iterate bs) as [e|ns]; [exists []; reflexivity|].
  destruct (print_keys_prefixed prefix ns) as [keys [E _]].
  exists keys. exact E.
Qed.

Lemma print_keys_stops : forall prefix good keys bad rest e,
    keyed good keys ->
    (subscript bad "key" = inl e \/
     exists k, subscript bad "key" = inr k /\ str_plus prefix k = inl e) ->
    print_keys prefix (good ++ bad :: rest) =
    (map (fun k => (prefix ++ k)%string) keys, Raised e).
Proof.
  intros prefix good keys bad rest e K Bad.
  induction K as [|n k ns keys Hk K IH].
  - cbn [List.app print_keys map]. destruct Bad as [B|[k [B1 B2]]].
    + rewrite B. reflexivity.
    + rewrite B1, B2. reflexivity.
  - cbn [List.app print_keys]. rewrite Hk. cbn [str_plus]. rewrite IH.
    reflexivity.
Qed.

(** X19: whatever the client answers, [get_variables] prints only lines
    of the three kinds and in blocks: network lines, then pop lines,
    then host lines.  Nothing is printed when the query raises.  The
    three loops run in sequence and what a loop printed stays printed:
    the output is the lines of the network loop, followed by those of
    the pop loop when the network loop ended normally, followed by those
    of the host loop when the pop loop ended normally too, and the run
    ends as the last loop that ran.  Inside a loop, a bucket without
    ['key'] or with a key that is not a string raises after the lines of
    the buckets before it have been printed, and no later bucket is
    printed. *)
Theorem get_variables_output_shape : forall url,
    (forall e, query url aggs = inl e ->
               get_variables query url = ([], Raised e)) /\
    (exists nkeys pkeys hkeys,
        fst (get_variables query url) =
        map (fun k => ("network: " ++ k)%string) nkeys ++
        map (fun k => ("pop: " ++ k)%string) pkeys ++
        map (fun k => ("host: " ++ k)%string) hkeys) /\
    (forall result e,
        query url aggs = inr result ->
        snd (print_buckets result "network_list" "network: ") = Raised e ->
        get_variables query url =
          (fst (print_buckets result "network_list" "network: "), Raised e)) /\
    (forall result e,
        query url aggs = inr result ->
        snd (print_buckets result "network_list" "network: ") = Done ->
        snd (print_buckets result "pop_list" "pop: ") = Raised e ->
        get_variables query url =
          (fst (print_buckets result "network_list" "network: ") ++
           fst (print_buckets result "pop_list" "pop: "), Raised e)) /\
    (forall result,
        query url aggs = inr result ->
        snd (print_buckets result "network_list" "network: ") = Done ->
        snd (print_buckets result "pop_list" "pop: ") = Done ->
        get_variables query url =
          (fst (print_buckets result "network_list" "network: ") ++
           fst (print_buckets result "pop_list" "pop: ") ++
           fst (print_buckets result "host_list" "host: "),
           snd (print_buckets result "host_list" "host: "))) /\
    (forall result a b name prefix good keys bad rest e,
        subscript result "aggregations" = inr a ->
        subscript a name = inr b ->
        subscript b "buckets" = inr (JList (good ++ bad :: rest)) ->
        keyed good keys ->
        (subscript bad "key" = inl e \/
         exists k, subscript bad "key" = inr k /\ str_plus prefix k = inl e) ->
        print_buckets result name prefix =
          (map (fun k => (prefix ++ k)%string) keys, Raised e)).
Proof.
  intro url. unfold get_variables.
  split; [intros e Q; rewrite Q; reflexivity|].
  split.
  { destruct (query url aggs) as [e|result];
      [exists [], [], []; reflexivity|].
    destruct (print_buckets_prefixed result "network_list" "network: ")
      as [nk En].
    destruct (print_buckets_prefixed result "pop_list" "pop: ") as [pk Ep].
    destruct (print_buckets_prefixed result "host_list" "host: ") as [hk Eh].
    destruct (print_buckets result "network_list" "network: ") as [l1 o1].
    destruct (print_buckets result "pop_list" "pop: ") as [l2 o2].
    destruct (print_buckets result "host_list" "host: ") as [l3 o3].
    cbn [fst] in En, Ep, Eh. subst l1 l2 l3.
    destruct o1 as [|e1]; cbn [and_then fst snd].
    - destruct o2 as [|e2]; cbn [and_then fst snd].
      + exists nk, pk, hk. reflexivity.
      + exists nk, pk, []. cbn [map]. rewrite app_nil_r. reflexivity.
    - exists nk, [], []. cbn [map]. rewrite app_nil_r. reflexivity. }
  split.
  { intros result e Q R. rewrite Q.
    destruct (print_buckets result "network_list" "network: ") as [l1 o1].
    cbn [snd] in R. subst o1. reflexivity. }
  split.
  { intros result e Q D R. rewrite Q.
    destruct (print_buckets result "network_list" "network: ") as [l1 o1].
    destruct (print_buckets result "pop_list" "pop: ") as [l2 o2].
    cbn [snd] in D, R. subst o1 o2. reflexivity. }
  split.
  { intros result Q D1 D2. rewrite Q.
    destruct (print_buckets result "network_list" "network: ") as [l1 o1].
    destruct (print_buckets result "pop_list" "pop: ") as [l2 o2].
    cbn [snd] in D1, D2. subst o1 o2. reflexivity. }
  intros result a b name prefix good keys bad rest e Ha Hb Hn K Bad.
  unfold print_buckets. rewrite Ha, Hb, Hn. cbn [iterate].
  apply print_keys_stops; assumption.
Qed.
End StartupFacts.

(** ** The further properties at concrete inputs *)

(** GOOG removed from the universe. *)
Lemma nix_drops_one_witness : length (nix "GOOG" DEFAULT_TICKERS) = 4.
Proof.
  assert (N : NoDup DEFAULT_TICKERS).
  { unfold DEFAULT_TICKERS.
    repeat (constructor; [simpl; intuition discriminate|]). constructor. }
  destruct (nix_drops_one "GOOG" DEFAULT_TICKERS N)
    as (_ & _ & _ & _ & _ & L).
  apply L. simpl. auto.
Defined.

(** The AAPL series of [market_host]. *)
Lemma load_ticker_frame_witness :
  exists returns,
    fst (@load_ticker ZPandas market_host "AAPL"
           (store (@run ZPandas market_host [] (@init ZPandas)))) =
      inr (@mkDF ZPandas (map date (series_A 1 2 3))
             [("AAPL", map c (series_A 1 2 3)); ("AAPL_returns", returns)]) /\
    length returns = 3.
Proof.
  destruct (@load_ticker_frame ZPandas market_host [] "AAPL" (series_A 1 2 3))
    as [returns (E & L & _)].
  - reflexivity.
  - discriminate.
  - exists returns. split; [exact E | exact L].
Defined.

(** YHOO has no file in [market_host]. *)
Lemma load_ticker_failure_not_cached_witness :
  @load_ticker ZPandas market_host "YHOO" (store (@init ZPandas)) =
  (inl FileNotFoundError, store (@init ZPandas)).
Proof.
  destruct (@load_ticker_failure_not_cached ZPandas market_host [] "YHOO")
    as [Missing _].
  apply Missing. reflexivity.
Defined.

(** AAPL written in capitals and in small letters. *)
Lemma spellings_share_file_not_cache_witness :
  @fname_of ZPandas market_host "AAPL" = @fname_of ZPandas market_host "aapl" /\
  reads (@fname_of ZPandas market_host "AAPL")
    (trace (snd (@load_ticker ZPandas market_host "aapl"
                   (snd (@load_ticker ZPandas market_host "AAPL"
                           (store (@init ZPandas))))))) = 2.
Proof.
  destruct (@spellings_share_file_not_cache ZPandas market_host
              "AAPL" "aapl" (series_A 1 2 3))
    as (Fn & _ & _ & _ & R & _).
  - reflexivity.
  - discriminate.
  - reflexivity.
  - discriminate.
  - split; [exact Fn | exact R].
Defined.

(** YHOO as first series. *)
Lemma get_data_missing_series_witness :
  @get_data ZPandas market_host "YHOO" "GOOG"
    (store (@run ZPandas market_host [] (@init ZPandas))) =
  (inl FileNotFoundError, store (@run ZPandas market_host [] (@init ZPandas))).
Proof.
  destruct (@get_data_missing_series ZPandas market_host [] "YHOO" "GOOG")
    as [First _].
  apply First. reflexivity.
Defined.

(** AAPL against itself. *)
Lemma get_data_same_identifier_witness :
  fst (@get_data ZPandas market_host "AAPL" "AAPL"
         (store (@run ZPandas market_host [] (@init ZPandas)))) =
  inl ValueError.
Proof.
  destruct (@get_data_same_identifier ZPandas market_host [] "AAPL"
              (series_A 1 2 3)) as [E _].
  - reflexivity.
  - discriminate.
  - exact E.
Defined.

(** The opening dataset of [market_host]. *)
Lemma dataset_is_complete_witness :
  rectangular market_frame /\ complete market_frame.
Proof.
  destruct (@dataset_is_complete ZPandas market_host [] "AAPL" "GOOG"
              market_frame) as (_ & R & C & _).
  - reflexivity.
  - vm_compute. reflexivity.
  - split; [exact R | exact C].
Defined.

Lemma dataset_dates_witness :
  exists df,
    fst (@get_data ZPandas market_host "AAPL" "GOOG"
           (store (@run ZPandas market_host [] (@init ZPandas)))) = inr df /\
    ~ In 1%Z (index df).
Proof.
  destruct (@dataset_dates ZPandas market_host [] "AAPL" "GOOG"
              (series_A 1 2 3) (series_B 1 2 3))
    as [df (G & _ & _ & First & _)];
    try reflexivity; try discriminate.
  exists df. split; [exact G | exact First].
Defined.

Lemma dataset_dates_increasing_witness :
  exists df,
    fst (@get_data ZPandas market_host "AAPL" "GOOG"
           (store (@run ZPandas market_host [] (@init ZPandas)))) = inr df /\
    increasing (index df) = true.
Proof.
  destruct (@dataset_dates_increasing ZPandas market_host [] "AAPL" "GOOG"
              (series_A 1 2 3) (series_B 1 2 3))
    as [df (G & I & _)];
    try reflexivity; try discriminate.
  exists df. split; [exact G | exact I].
Defined.

(** The first chooser of [market_host] set to YHOO, which has no file. *)
Lemma failed_change_keeps_publication_witness :
  @published ZPandas
    (@step ZPandas market_host (IdentifierChanged Slot1 "YHOO") market_open) =
  @published ZPandas market_open /\
  ticker1_value
    (widgets (@step ZPandas market_host (IdentifierChanged Slot1 "YHOO")
                market_open)) = "YHOO".
Proof.
  destruct (@failed_change_keeps_publication ZPandas market_host market_open
              Slot1 "YHOO" FileNotFoundError) as (_ & P & V & _).
  - vm_compute. reflexivity.
  - split; [exact P | exact V].
Defined.

Lemma update_is_idempotent_witness :
  widgets (snd (@update ZPandas market_host market_open)) = widgets market_open.
Proof.
  destruct (@update_is_idempotent ZPandas market_host (@init ZPandas))
    as (_ & W & _).
  - vm_compute. reflexivity.
  - exact W.
Defined.

(** BRCM chosen directly, and chosen after a detour through INTC. *)
Lemma publication_depends_on_pair_witness :
  @published ZPandas
    (@step ZPandas market_host (IdentifierChanged Slot1 "BRCM")
       (@run ZPandas market_host [] (@init ZPandas))) =
  @published ZPandas
    (@step ZPandas market_host (IdentifierChanged Slot1 "BRCM")
       (@run ZPandas market_host [IdentifierChanged Slot1 "INTC"]
          (@init ZPandas))).
Proof.
  apply (@publication_depends_on_pair ZPandas market_host
           [] [IdentifierChanged Slot1 "INTC"] Slot1 "BRCM" Slot1 "BRCM");
    vm_compute; reflexivity.
Defined.


Lemma selecting_every_row_witness :
  @restrict ZPandas market_frame (seq 0 (nrows market_frame)) =
  inr market_frame.
Proof.
  destruct (@selecting_every_row ZPandas market_host [] market_frame)
    as [R _].
  - reflexivity.
  - vm_compute. reflexivity.
  - exact R.
Defined.

Lemma completed_change_shape_witness :
  ts1_title_text
    (widgets (@step ZPandas market_host (IdentifierChanged Slot1 "BRCM")
                (@run ZPandas market_host [] (@init ZPandas)))) = "BRCM".
Proof.
  destruct (@completed_change_shape ZPandas market_host [] Slot1 "BRCM")
    as (_ & T & _).
  - vm_compute. reflexivity.
  - vm_compute. reflexivity.
  - rewrite T. vm_compute. reflexivity.
Defined.

(** The three lists of [sample_answer]. *)
Lemma get_variables_prints_all_witness :
  get_variables sample_query "http://elk:9200" =
  (["network: core"; "network: edge"; "pop: ams"; "pop: lax";
    "host: h1"; "host: h2"], Done).
Proof.
  assert (Kn : keyed [bucket "core" 9; bucket "edge" 1] ["core"; "edge"])
    by (repeat constructor).
  assert (Kp : keyed [bucket "ams" 7; bucket "lax" 2] ["ams"; "lax"])
    by (repeat constructor).
  assert (Kh : keyed [bucket "h1" 5; bucket "h2" 4] ["h1"; "h2"])
    by (repeat constructor).
  exact (proj1 (get_variables_prints_all sample_query "http://elk:9200"
                  sample_answer _ _ _ _ _ _ _ _ _ _
                  eq_refl eq_refl eq_refl eq_refl Kn
                  eq_refl eq_refl Kp eq_refl eq_refl Kh)).
Defined.

(** On [broken_answer] the network line and the first pop line are
    printed before the number met as a key raises. *)
Lemma get_variables_output_shape_witness :
  get_variables broken_query "http://elk:9200" =
  (["network: core"; "pop: ams"], Raised STypeError).
Proof.
  destruct (get_variables_output_shape broken_query "http://elk:9200")
    as (_ & _ & _ & Pop & _).
  rewrite (Pop broken_answer STypeError); reflexivity.
Defined.

(** ** [update_stats] and a failing pair *)

Section StatsFacts.
Context `{Host}.

Lemma column_none : forall name (df : DataFrame),
    column name df = None <-> named name (columns df) = [].
Proof.
  intros name df. unfold column.
  destruct (named name (columns df)); split; intro E;
    try reflexivity; discriminate.
Qed.

Lemma pick_missing : forall cols names n,
    In n names -> named n cols = [] -> pick cols names = inl KeyError.
Proof.
  intros cols names n. induction names as [|m names IH]; intros Hin Hn;
    [contradiction|].
  cbn [pick]. destruct Hin as [->|Hin].
  - rewrite Hn. reflexivity.
  - destruct (named m cols); [reflexivity|].
    rewrite (IH Hin Hn). reflexivity.
Qed.

Lemma pick_found : forall cols names,
    (forall n, In n names -> named n cols <> []) ->
    exists picked, pick cols names = inr picked.
Proof.
  intros cols names. induction names as [|m names IH]; intro F.
  - exists []. reflexivity.
  - cbn [pick]. destruct (named m cols) as [|nc found] eqn:E.
    + exfalso. apply (F m); [left; reflexivity | exact E].
    + destruct IH as [rest R]; [intros n Hn; apply F; right; exact Hn|].
      rewrite R. eexists. reflexivity.
Qed.

(** X20: [update_stats] raises [KeyError] as soon as one of the four
    columns it reports on is missing from the data, and then assigns
    nothing; when the four columns are there it ends normally and the
    only thing it changes is the statistics text, which becomes the
    rendering of the report over those columns. *)
Theorem update_stats_outcome : forall data t1 t2 (s : State),
    ((exists n, In n (stat_columns t1 t2) /\ column n data = None) ->
     update_stats data t1 t2 s = (inl KeyError, s)) /\
    ((forall n, In n (stat_columns t1 t2) -> column n data <> None) ->
     exists view,
       select data (stat_columns t1 t2) = inr view /\
       index view = index data /\
       update_stats data t1 t2 s =
         (inr tt,
          mkState (store s)
            (set_stats_text (str (describe view)) (widgets s)))).
Proof.
  intros data t1 t2 s. rewrite update_stats_run. unfold select. split.
  - intros [n [Hin Hn]]. apply column_none in Hn.
    rewrite (pick_missing _ _ n Hin Hn). reflexivity.
  - intro F.
    destruct (pick_found (columns data) (stat_columns t1 t2)) as [picked P].
    { intros n Hn E. apply (F n Hn). apply column_none. exact E. }
    rewrite P. eexists. split; [reflexivity|]. split; reflexivity.
Qed.

(** X21: while the dataset of the current pair cannot be built, every
    selection change fails the same way.  In any state the process
    reaches, if the uncached computation for the pair the choosers hold
    raises, the selection handler raises that exception for any
    selection and publishes nothing. *)
Theorem selection_fails_with_pair : forall es indices e,
    let s := run es init in
    pair_value (ticker1_value (widgets s)) (ticker2_value (widgets s)) =
      inl e ->
    fst (dispatch (SelectionChanged indices) s) = inl e /\
    published (step (SelectionChanged indices) s) = published s.
Proof.
  intros es indices e s P.
  destruct (get_data_coherent (ticker1_value (widgets s))
              (ticker2_value (widgets s)) (store s)) as [E _];
    [apply run_coherent|].
  rewrite P in E. unfold step.
  rewrite dispatch_selection, selection_change_run. cbv zeta.
  cbn [widgets store ticker1_value ticker2_value set_source_selected_indices].
  destruct (get_data _ _ (store s)) as [[e0|df] st]; simpl in E;
    [|discriminate].
  injection E as ->. split; reflexivity.
Qed.
End StatsFacts.

(** The initial data source has no column named after an identifier. *)
Lemma update_stats_outcome_witness :
  @update_stats ZPandas market_host (@empty_source ZPandas) "AAPL" "GOOG"
    (@init ZPandas) = (inl KeyError, @init ZPandas).
Proof.
  destruct (@update_stats_outcome ZPandas market_host (@empty_source ZPandas)
              "AAPL" "GOOG" (@init ZPandas)) as [Missing _].
  apply Missing. exists "AAPL". split; [simpl; auto | reflexivity].
Defined.

(** The first chooser on YHOO, which has no file. *)
Lemma selection_fails_with_pair_witness :
  fst (@dispatch ZPandas market_host (SelectionChanged [0])
         (@run ZPandas market_host [IdentifierChanged Slot1 "YHOO"]
            (@init ZPandas))) = inl FileNotFoundError.
Proof.
  destruct (@selection_fails_with_pair ZPandas market_host
              [IdentifierChanged Slot1 "YHOO"] [0] FileNotFoundError)
    as [E _].
  - vm_compute. reflexivity.
  - exact E.
Defined.
